(** * Burst-fire tee time booking: a shallow embedding of
      [Automated_Tee_Time_Booking.py] and the properties of its
      scheduler, retry engine, dispatcher and aggregator.

    Conventions of the embedding.
    - Python [float]s (timestamps in seconds, latencies in milliseconds)
      are exact rationals [Q]; rounding is not modelled.
    - Python [str] is [string], the bytes of the text in UTF-8, so that
      [in] and [split] on ASCII separators are the same on both.
      [str.lower] is modelled on the ASCII letters, which are all it
      changes in an ASCII text; a statement that needs [str.lower] to
      leave every other character alone assumes [ascii_text].
    - A coroutine is a term of the free monad [coro] over the four things
      a booking unit asks of the outside world: the wall clock, a sleep,
      an HTTP POST and a log line.  One term has two readings: [run]
      (one unit against what it observes) and [loop_step] (the event
      loop interleaving many units). *)

From Stdlib Require Import ZArith QArith List String Ascii Bool Lia Lqa.
From Stdlib Require Import DecimalString Relations Permutation.
Import ListNotations.

Local Open Scope Z_scope.

(** ** Python strings *)

Module PyStr.

(** One character of [str.lower()], on ASCII. *)
Definition lower_ascii (c : ascii) : ascii :=
  let n := nat_of_ascii c in
  if ((65 <=? n) && (n <=? 90))%nat then ascii_of_nat (n + 32) else c.

(** [s.lower()] *)
Fixpoint lower (s : string) : string :=
  match s with
  | EmptyString => EmptyString
  | String c r => String (lower_ascii c) (lower r)
  end.

(** [needle in hay] *)
Fixpoint contains (needle hay : string) : bool :=
  String.prefix needle hay
  || match hay with
     | EmptyString => false
     | String _ r => contains needle r
     end.

(** [x or ""] for an [Optional[str]]. *)
Definition or_empty (x : option string) : string :=
  match x with
  | Some s => s
  | None => EmptyString
  end.

(** The text holds ASCII characters only. *)
Fixpoint ascii_text (s : string) : bool :=
  match s with
  | EmptyString => true
  | String c r => (nat_of_ascii c <? 128)%nat && ascii_text r
  end.

(** [s.split(sep)] for a one-character separator. *)
Fixpoint split_on (sep : ascii) (s : string) : list string :=
  match s with
  | EmptyString => [EmptyString]
  | String c r =>
      if Ascii.eqb c sep then EmptyString :: split_on sep r
      else match split_on sep r with
           | h :: t => String c h :: t
           | [] => [String c EmptyString]
           end
  end.

Definition is_space (c : ascii) : bool :=
  let n := nat_of_ascii c in
  (((9 <=? n) && (n <=? 13)) || ((28 <=? n) && (n <=? 32)))%nat.

Definition digit_of (c : ascii) : option Z :=
  let n := nat_of_ascii c in
  if ((48 <=? n) && (n <=? 57))%nat then Some (Z.of_nat (n - 48)) else None.

Fixpoint lstrip (s : string) : string :=
  match s with
  | String c r => if is_space c then lstrip r else s
  | EmptyString => EmptyString
  end.

Fixpoint rstrip (s : string) : string :=
  match s with
  | EmptyString => EmptyString
  | String c r =>
      match rstrip r with
      | EmptyString => if is_space c then EmptyString else String c EmptyString
      | r' => String c r'
      end
  end.

(** The digits of an integer literal: decimal digits, single underscores
    allowed between two digits.  [after_digit] tells whether the previous
    character was a digit. *)
Fixpoint digits_value (acc : Z) (after_digit : bool) (s : string) : option Z :=
  match s with
  | EmptyString => if after_digit then Some acc else None
  | String c r =>
      match digit_of c with
      | Some d => digits_value (10 * acc + d) true r
      | None =>
          if Ascii.eqb c "_"%char && after_digit
          then digits_value acc false r
          else None
      end
  end.

(** [int(s)] on a string: [None] stands for [ValueError]. *)
Definition py_int (s : string) : option Z :=
  match lstrip (rstrip s) with
  | String "-"%char r => option_map Z.opp (digits_value 0 false r)
  | String "+"%char r => digits_value 0 false r
  | body => digits_value 0 false body
  end.

(** [str(n)] for an [int]. *)
Definition str_of_int (n : Z) : string :=
  NilZero.string_of_int (Z.to_int n).

End PyStr.

Import PyStr.

(** ** Numbers *)

(** [x < y] on floats. *)
Definition Qltb (x y : Q) : bool := negb (Qle_bool y x).

(** Truth value of a float: [0.0] is falsy. *)
Definition truthy_float (x : Q) : bool := negb (Qeq_bool x 0).

(** Truth value of an [Optional[str]]: [None] and the empty string are falsy. *)
Definition truthy_str (x : option string) : bool :=
  match x with
  | Some (String _ _) => true
  | _ => false
  end.

(** [sum(l)] *)
Definition py_sum (l : list Q) : Q := fold_left Qplus l 0%Q.

(** [min(l, key=key)] on a non-empty list: the running best is replaced
    only by an element whose key is strictly smaller. *)
Definition py_min_by {A : Type} (key : A -> Q) (first : A) (rest : list A) : A :=
  fold_left (fun best a => if Qltb (key a) (key best) then a else best) rest first.

(** ** Data model *)

(** [class BurstConfig] *)
Record BurstConfig : Type := mkBurstConfig {
  burst_offsets : list Z;
  retry_interval_ms : Z;
  max_retry_attempts : Z;
  max_concurrent_requests : Z;
  booking_window_time : string;
  cutoff_seconds : Q
}.

Definition default_burst_offsets : list Z := [-70; -40; -10; 10; 40; 70].

(** The constructor with [__post_init__]: [burst_offsets=None] becomes the
    default six-point spread. *)
Definition BurstConfig_init (offsets : option (list Z))
    (retry_interval max_retry max_concurrent : Z) (window : string)
    (cutoff : Q) : BurstConfig :=
  mkBurstConfig
    (match offsets with
     | None => default_burst_offsets
     | Some l => l
     end)
    retry_interval max_retry max_concurrent window cutoff.

(** [BurstConfig()] *)
Definition BurstConfig_default : BurstConfig :=
  BurstConfig_init None 35 50 10 "23:00:00" 30.

(** [class BookingAttempt] *)
Record BookingAttempt : Type := mkBookingAttempt {
  timestamp : Q;
  offset_ms : Z;
  response_time_ms : Q;
  status_code : option Z;
  success : bool;
  error_message : option string;
  round_trip_latency_ms : option Q
}.

Definition set_response_time_ms (v : Q) (a : BookingAttempt) : BookingAttempt :=
  mkBookingAttempt (timestamp a) (offset_ms a) v (status_code a) (success a)
    (error_message a) (round_trip_latency_ms a).

Definition set_status_code (v : option Z) (a : BookingAttempt) : BookingAttempt :=
  mkBookingAttempt (timestamp a) (offset_ms a) (response_time_ms a) v (success a)
    (error_message a) (round_trip_latency_ms a).

Definition set_success (v : bool) (a : BookingAttempt) : BookingAttempt :=
  mkBookingAttempt (timestamp a) (offset_ms a) (response_time_ms a) (status_code a) v
    (error_message a) (round_trip_latency_ms a).

Definition set_error_message (v : option string) (a : BookingAttempt) : BookingAttempt :=
  mkBookingAttempt (timestamp a) (offset_ms a) (response_time_ms a) (status_code a)
    (success a) v (round_trip_latency_ms a).

Definition set_round_trip_latency_ms (v : option Q) (a : BookingAttempt) : BookingAttempt :=
  mkBookingAttempt (timestamp a) (offset_ms a) (response_time_ms a) (status_code a)
    (success a) (error_message a) v.

(** ** Effects of a booking unit *)

(** What one [session.post] comes back with: a response, an
    [aiohttp.ClientError], or any other [Exception] (the request timeout
    raises [asyncio.TimeoutError], which is none of the former). *)
Inductive net_outcome : Type :=
| Response (status : Z) (text : string)
| ClientError (msg : string)
| OtherError (msg : string).

(** Lines written through the logger by a unit. *)
Inductive log_entry : Type :=
| LogRetrying (offset : Z)
| LogAttempt (a : BookingAttempt)
| LogWarning (msg : string)
| LogException (msg : string).

(** A coroutine returning [A]: the free monad over the unit's requests to
    the outside world. *)
Inductive coro (A : Type) : Type :=
| Ret (a : A)
| Clock (k : Q -> coro A)
| Sleep (d : Q) (k : coro A)
| Post (target_date tee_time : string) (k : net_outcome -> coro A)
| Emit (l : log_entry) (k : coro A).

Arguments Ret {A} a.
Arguments Clock {A} k.
Arguments Sleep {A} d k.
Arguments Post {A} target_date tee_time k.
Arguments Emit {A} l k.

Fixpoint cbind {A B : Type} (c : coro A) (f : A -> coro B) : coro B :=
  match c with
  | Ret a => f a
  | Clock k => Clock (fun t => cbind (k t) f)
  | Sleep d k => Sleep d (cbind k f)
  | Post d t k => Post d t (fun r => cbind (k r) f)
  | Emit l k => Emit l (cbind k f)
  end.

(** A Python result: a value, or a raised [Exception] with its [str(e)]. *)
Inductive result (A : Type) : Type :=
| Ok (a : A)
| Exn (msg : string).

Arguments Ok {A} a.
Arguments Exn {A} msg.

Definition rbind {A B : Type} (r : result A) (f : A -> result B) : result B :=
  match r with
  | Ok a => f a
  | Exn e => Exn e
  end.

(** Code that runs inside a coroutine, may raise, and mutates a local
    object of type [St]: what was written to the object before an exception
    is still there when the exception is caught. *)
Definition prog (St A : Type) : Type := St -> coro (result A * St).

Definition ret {St A : Type} (a : A) : prog St A := fun s => Ret (Ok a, s).

Definition raise {St A : Type} (msg : string) : prog St A := fun s => Ret (Exn msg, s).

Definition bind {St A B : Type} (m : prog St A) (f : A -> prog St B) : prog St B :=
  fun s =>
    cbind (m s) (fun rs =>
      match rs with
      | (Ok a, s') => f a s'
      | (Exn e, s') => Ret (Exn e, s')
      end).

(** [try: m  except Exception as e: h e] *)
Definition try_except {St A : Type} (m : prog St A) (h : string -> prog St A) : prog St A :=
  fun s =>
    cbind (m s) (fun rs =>
      match rs with
      | (Ok a, s') => Ret (Ok a, s')
      | (Exn e, s') => h e s'
      end).

Definition get {St : Type} : prog St St := fun s => Ret (Ok s, s).

Definition modify {St : Type} (f : St -> St) : prog St unit := fun s => Ret (Ok tt, f s).

(** A block with a fresh local object [s0]. *)
Definition with_local {St St' A : Type} (s0 : St') (m : prog St' A) : prog St A :=
  fun s => cbind (m s0) (fun rs => Ret (fst rs, s)).

(** [time.time()] *)
Definition time {St : Type} : prog St Q := fun s => Clock (fun t => Ret (Ok t, s)).

(** [await asyncio.sleep(d)] *)
Definition sleep {St : Type} (d : Q) : prog St unit := fun s => Sleep d (Ret (Ok tt, s)).

(** [await session.post(...)] together with [await response.text()]. *)
Definition post {St : Type} (target_date tee_time : string) : prog St net_outcome :=
  fun s => Post target_date tee_time (fun r => Ret (Ok r, s)).

Definition emit {St : Type} (l : log_entry) : prog St unit := fun s => Emit l (Ret (Ok tt, s)).

Notation "x <- m ;; k" := (bind m (fun x => k))
  (at level 61, m at next level, right associativity).
Notation "' pat <- m ;; k" := (bind m (fun x => match x with pat => k end))
  (at level 61, pat pattern, m at next level, right associativity).
Notation "m ;; k" := (bind m (fun _ => k))
  (at level 61, right associativity).
Notation "x <~ m ;; k" := (rbind m (fun x => k))
  (at level 61, m at next level, right associativity).

(** ** The two readings of a coroutine *)

(** What one unit observes: the successive readings of the clock and the
    successive outcomes of its requests. *)
Record env : Type := mkEnv {
  clock : nat -> Q;
  network : nat -> net_outcome
}.

Inductive event : Type :=
| Slept (d : Q)
| Posted (target_date tee_time : string)
| Logged (l : log_entry).

(** How far a unit has consumed its [env], and what it did so far. *)
Record cursor : Type := mkCursor {
  ticks : nat;
  posts : nat;
  trace : list event
}.

Definition cursor0 : cursor := mkCursor 0 0 [].

Definition tick (o : cursor) : cursor := mkCursor (S (ticks o)) (posts o) (trace o).

Definition record (ev : event) (o : cursor) : cursor :=
  mkCursor (ticks o) (posts o) (trace o ++ [ev]).

Definition posted (d t : string) (o : cursor) : cursor :=
  mkCursor (ticks o) (S (posts o)) (trace o ++ [Posted d t]).

(** One unit run to completion against what it observes. *)
Fixpoint run {A : Type} (e : env) (c : coro A) (o : cursor) : A * cursor :=
  match c with
  | Ret a => (a, o)
  | Clock k => run e (k (clock e (ticks o))) (tick o)
  | Sleep d k => run e k (record (Slept d) o)
  | Post d t k => run e (k (network e (posts o))) (posted d t o)
  | Emit l k => run e k (record (Logged l) o)
  end.

(** The event loop resumes one suspended coroutine with an answer. *)
Inductive resume {A : Type} : coro A -> coro A -> Prop :=
| resume_clock (k : Q -> coro A) (t : Q) : resume (Clock k) (k t)
| resume_sleep (d : Q) (k : coro A) : resume (Sleep d k) k
| resume_post (d t : string) (k : net_outcome -> coro A) (r : net_outcome) :
    resume (Post d t k) (k r)
| resume_emit (l : log_entry) (k : coro A) : resume (Emit l k) k.

(** One step of the event loop over the units gathered in a burst. *)
Inductive loop_step {A : Type} : list (coro A) -> list (coro A) -> Prop :=
| loop_step_at (before after : list (coro A)) (c c' : coro A) :
    resume c c' ->
    loop_step (before ++ c :: after) (before ++ c' :: after).

(** A unit is in its network phase while it awaits the answer to a POST. *)
Definition in_network_phase {A : Type} (c : coro A) : bool :=
  match c with
  | Post _ _ _ => true
  | _ => false
  end.

Definition in_flight {A : Type} (pool : list (coro A)) : nat :=
  List.length (filter in_network_phase pool).

(** ** The booker *)

(** Values read by [json.load]. A [dict] is its list of items. *)
#[local] Unset Elimination Schemes.
Inductive json : Type :=
| JNull
| JBool (b : bool)
| JInt (n : Z)
| JFloat (q : Q)
| JStr (s : string)
| JList (l : list json)
| JDict (items : list (string * json)).
#[local] Set Elimination Schemes.

(** [self] of [BurstFireTeeTimeBooker]: the fields the burst reads. *)
Record Booker : Type := mkBooker {
  config : BurstConfig;
  credentials : json;
  target_times : list string
}.

Definition default_target_times : list string := ["7:33"; "7:42"]%string.

(** [BurstFireTeeTimeBooker.__init__]: [target_times or ["7:33", "7:42"]]
    replaces [None] and an empty list alike. *)
Definition Booker_init (cfg : BurstConfig) (creds : json)
    (targets : option (list string)) : Booker :=
  mkBooker cfg creds
    (match targets with
     | Some ((_ :: _) as l) => l
     | _ => default_target_times
     end).

(** The retry test of [_schedule_booking_attempt]:
    [status_code == 400 and "booking not open" in (error_msg or "").lower()] *)
Definition is_booking_not_open (status : Z) (error_msg : option string) : bool :=
  (status =? 400) && contains "booking not open" (lower (or_empty error_msg)).

(** [_make_booking_request] *)
Definition make_booking_request {St : Type} (self : Booker)
    (target_date tee_time : string) : prog St (bool * Z * option string) :=
  r <- post target_date tee_time ;;
  match r with
  | Response status response_text =>
      if status =? 200 then ret (true, status, None)
      else ret (false, status, Some response_text)
  | ClientError msg => ret (false, 0, Some msg)
  | OtherError msg => raise msg
  end.

(** The value returned when the loop of [_smart_retry] ends. *)
Definition exhausted (retry_count : Z) : bool * Z * option string :=
  (false, 400,
   Some ("Max retries (" ++ str_of_int retry_count
         ++ ") reached or cutoff time exceeded")%string).

(** The [while] loop of [_smart_retry].  [remaining] is the loop's variant
    [max_retry_attempts - retry_count]: it is [0] exactly when the first
    conjunct [retry_count < max_retry_attempts] fails, and the clock is not
    read then. *)
Fixpoint retry_loop {St : Type} (self : Booker) (target_date tee_time : string)
    (cutoff_time : Q) (remaining : nat) (retry_count : Z)
    : prog St (bool * Z * option string) :=
  match remaining with
  | O => ret (exhausted retry_count)
  | S remaining' =>
      now <- time ;;
      if Qltb now cutoff_time then
        sleep (inject_Z (retry_interval_ms (config self)) / 1000)%Q ;;
        '(success, status_code, error_msg) <-
          make_booking_request self target_date tee_time ;;
        let retry_count := retry_count + 1 in
        if success || negb (status_code =? 400) then
          ret (success, status_code, error_msg)
        else if negb (contains "booking not open" (lower (or_empty error_msg))) then
          ret (success, status_code, error_msg)
        else
          retry_loop self target_date tee_time cutoff_time remaining' retry_count
      else ret (exhausted retry_count)
  end.

(** [_smart_retry] *)
Definition smart_retry {St : Type} (self : Booker) (target_date tee_time : string)
    (initial_start : Q) : prog St (bool * Z * option string) :=
  let cutoff_time := (initial_start + cutoff_seconds (config self))%Q in
  retry_loop self target_date tee_time cutoff_time
    (Z.to_nat (max_retry_attempts (config self))) 0.

(** [EnhancedLogger.log_attempt], on the unit's own record.  Formatting
    [round_trip_latency_ms] with [:.2f] raises on [None]. *)
Definition log_attempt : prog BookingAttempt unit :=
  attempt <- get ;;
  match round_trip_latency_ms attempt with
  | None => raise "unsupported format string passed to NoneType.__format__"
  | Some _ =>
      emit (LogAttempt attempt) ;;
      if truthy_str (error_message attempt)
      then emit (LogWarning (or_empty (error_message attempt)))
      else ret tt
  end.

(** [execution_time = base_time + (offset_ms / 1000.0)] *)
Definition execution_time (base_time : Q) (offset_ms : Z) : Q :=
  (base_time + inject_Z offset_ms / 1000)%Q.

(** [_schedule_booking_attempt] *)
Definition schedule_booking_attempt (self : Booker) (base_time : Q)
    (offset_ms : Z) (target_date tee_time : string) : prog unit BookingAttempt :=
  current_time <- time ;;
  let wait_time := (execution_time base_time offset_ms - current_time)%Q in
  (if Qltb 0 wait_time then sleep wait_time else ret tt) ;;
  attempt_start <- time ;;
  with_local (mkBookingAttempt attempt_start offset_ms 0 None false None None)
    (try_except
       ('(success, status_code, error_msg) <-
          make_booking_request self target_date tee_time ;;
        t <- time ;;
        let response_time := ((t - attempt_start) * 1000)%Q in
        modify (set_response_time_ms response_time) ;;
        modify (set_status_code (Some status_code)) ;;
        modify (set_success success) ;;
        modify (set_error_message error_msg) ;;
        modify (set_round_trip_latency_ms (Some response_time)) ;;
        (if is_booking_not_open status_code error_msg then
           emit (LogRetrying offset_ms) ;;
           '(success, final_status, final_error) <-
             smart_retry self target_date tee_time attempt_start ;;
           modify (set_success success) ;;
           modify (set_status_code (Some final_status)) ;;
           modify (set_error_message final_error)
         else ret tt) ;;
        log_attempt)
       (fun e =>
          modify (set_error_message (Some e)) ;;
          emit (LogException e)) ;;
     get).

(** ** Scheduler *)

(** What the burst asks of the standard library about today's date:
    [dt.now().replace(hour, minute, second, microsecond=0).timestamp()] for
    valid fields, [date.today().toordinal()], and
    [date.fromordinal(n).strftime("%m-%d-%Y")] for a day [n] in the range
    of [date]. *)
Record platform : Type := mkPlatform {
  local_timestamp : Z -> Z -> Z -> Q;
  today_ordinal : Z;
  strftime_date : Z -> string
}.

(** [date.max.toordinal()], the day 9999-12-31; [date.min] is day 1. *)
Definition max_ordinal : Z := 3652059.

(** [(date.today() + datetime.timedelta(days=days)).strftime("%m-%d-%Y")]:
    [timedelta] raises [OverflowError] on a number of days that is no C
    [int] or whose magnitude is above 999999999, and the addition raises it
    when the day is out of the range of [date]. *)
Definition format_target_date (pf : platform) (days : Z) : result string :=
  if negb ((-2147483648 <=? days) && (days <=? 2147483647))
  then Exn "Python int too large to convert to C int"
  else if negb ((-999999999 <=? days) && (days <=? 999999999))
  then Exn ("days=" ++ str_of_int days ++ "; must have magnitude <= 999999999")
  else
    let ordinal := today_ordinal pf + days in
    if (1 <=? ordinal) && (ordinal <=? max_ordinal)
    then Ok (strftime_date pf ordinal)
    else Exn "date value out of range".

(** [parts[i]] *)
Definition list_index (parts : list string) (i : nat) : result string :=
  match nth_error parts i with
  | Some p => Ok p
  | None => Exn "list index out of range"
  end.

(** [int(s)] *)
Definition int_of_str (s : string) : result Z :=
  match py_int s with
  | Some n => Ok n
  | None => Exn ("invalid literal for int() with base 10: '" ++ s ++ "'")%string
  end.

(** [today.replace(hour=..., minute=..., second=..., microsecond=0).timestamp()] *)
Definition replace_timestamp (pf : platform) (hour minute second : Z) : result Q :=
  if negb ((0 <=? hour) && (hour <=? 23)) then Exn "hour must be in 0..23"
  else if negb ((0 <=? minute) && (minute <=? 59)) then Exn "minute must be in 0..59"
  else if negb ((0 <=? second) && (second <=? 59)) then Exn "second must be in 0..59"
  else Ok (local_timestamp pf hour minute second).

(** [_calculate_booking_time] *)
Definition calculate_booking_time (pf : platform) (self : Booker) : result Q :=
  let booking_time_parts := split_on ":" (booking_window_time (config self)) in
  p0 <~ list_index booking_time_parts 0 ;;
  hour <~ int_of_str p0 ;;
  p1 <~ list_index booking_time_parts 1 ;;
  minute <~ int_of_str p1 ;;
  p2 <~ list_index booking_time_parts 2 ;;
  second <~ int_of_str p2 ;;
  replace_timestamp pf hour minute second.

(** The arguments one coroutine of [booking_tasks] was created with. *)
Record job : Type := mkJob {
  job_base_time : Q;
  job_offset_ms : Z;
  job_target_date : string;
  job_tee_time : string
}.

(** The instant at which the unit of a job is scheduled to fire. *)
Definition fire_instant (j : job) : Q :=
  execution_time (job_base_time j) (job_offset_ms j).

(** The two nested [for] loops of [execute_burst_strategy], appending one
    task per offset and tee time. *)
Definition booking_tasks (self : Booker) (booking_time : Q)
    (target_date : string) : list job :=
  fold_left
    (fun tasks offset_ms =>
       fold_left
         (fun tasks tee_time =>
            tasks ++ [mkJob booking_time offset_ms target_date tee_time])
         (target_times self) tasks)
    (burst_offsets (config self)) [].

(** The coroutine of a job, not yet started. *)
Definition unit_of (self : Booker) (j : job) : coro (result BookingAttempt * unit) :=
  schedule_booking_attempt self (job_base_time j) (job_offset_ms j)
    (job_target_date j) (job_tee_time j) tt.

(** One unit run against what it observes: what it returns or raises, and
    what it did. *)
Definition run_unit (self : Booker) (e : env) (j : job) : result BookingAttempt * cursor :=
  let (rs, o) := run e (unit_of self j) cursor0 in (fst rs, o).

(** [asyncio.gather] of the booking tasks with [return_exceptions=True]: one result per
    task, in the order of the tasks.  The units share no mutable object, so
    the result of unit [i] is a function of what unit [i] observes,
    [envs i]. *)
Fixpoint gather (self : Booker) (envs : nat -> env) (i : nat) (tasks : list job)
    : list (result BookingAttempt) :=
  match tasks with
  | [] => []
  | j :: rest => fst (run_unit self (envs i) j) :: gather self envs (S i) rest
  end.

(** ** Aggregator *)

Record summary : Type := mkSummary {
  n_successful : nat;
  n_failed : nat;
  fastest : option BookingAttempt;
  avg_response : option Q
}.

(** [EnhancedLogger.log_burst_summary]: the numbers it logs. *)
Definition log_burst_summary (attempts : list BookingAttempt) : summary :=
  let successful := filter success attempts in
  let failed := filter (fun a => negb (success a)) attempts in
  let fastest :=
    match successful with
    | [] => None
    | first :: rest => Some (py_min_by response_time_ms first rest)
    end in
  let response_times :=
    map response_time_ms
      (filter (fun a => truthy_float (response_time_ms a)) attempts) in
  let avg_response :=
    match response_times with
    | [] => None
    | _ :: _ =>
        Some (py_sum response_times
              / inject_Z (Z.of_nat (List.length response_times)))%Q
    end in
  mkSummary (List.length successful) (List.length failed) fastest avg_response.

(** ** Dispatcher *)

Record burst_report : Type := mkReport {
  report_scheduled : nat;
  report_attempts : list BookingAttempt;
  report_exceptions : list string;
  report_summary : summary
}.

(** [execute_burst_strategy]; its return value is [report_attempts].  The
    lines it logs about the number of tasks and the total time are left
    out. *)
Definition execute_burst_strategy (pf : platform) (self : Booker)
    (target_date : string) (envs : nat -> env) : result burst_report :=
  booking_time <~ calculate_booking_time pf self ;;
  let tasks := booking_tasks self booking_time target_date in
  let results := gather self envs 0 tasks in
  let attempts :=
    flat_map (fun r => match r with Ok a => [a] | Exn _ => [] end) results in
  let exceptions :=
    flat_map (fun r => match r with Ok _ => [] | Exn e => [e] end) results in
  Ok (mkReport (List.length tasks) attempts exceptions (log_burst_summary attempts)).

(** ** Configuration and the entry point *)

(** What [run_burst_booking] gives back: a value, an exception raised to
    its caller, or [IllTyped] when the configuration gives a recognized key
    a value of another type than the one [BurstConfig] annotates; what
    Python does with such a value is outside this embedding. *)
Inductive outcome (A : Type) : Type :=
| Returned (a : A)
| Raised (msg : string)
| IllTyped.

Arguments Returned {A} a.
Arguments Raised {A} msg.
Arguments IllTyped {A}.

Definition obind {A B : Type} (m : outcome A) (f : A -> outcome B) : outcome B :=
  match m with
  | Returned a => f a
  | Raised e => Raised e
  | IllTyped => IllTyped
  end.

Notation "x <-- m ;; k" := (obind m (fun x => k))
  (at level 61, m at next level, right associativity).

Definition of_result {A : Type} (r : result A) : outcome A :=
  match r with
  | Ok a => Returned a
  | Exn e => Raised e
  end.

Definition typed {A : Type} (x : option A) : outcome A :=
  match x with
  | Some a => Returned a
  | None => IllTyped
  end.

Fixpoint items_get (key : string) (items : list (string * json)) : option json :=
  match items with
  | [] => None
  | (k, v) :: rest => if String.eqb k key then Some v else items_get key rest
  end.

(** [d.get(key, default)]: only a [dict] has the method. *)
Definition py_get (d : json) (key : string) (default : json) : result json :=
  match d with
  | JDict items =>
      Ok (match items_get key items with
          | Some v => v
          | None => default
          end)
  | _ => Exn "object has no attribute 'get'"
  end.

Definition as_int (v : json) : option Z :=
  match v with
  | JInt n => Some n
  | _ => None
  end.

Definition as_str (v : json) : option string :=
  match v with
  | JStr s => Some s
  | _ => None
  end.

Definition as_number (v : json) : option Q :=
  match v with
  | JInt n => Some (inject_Z n)
  | JFloat q => Some q
  | _ => None
  end.

Fixpoint all_some {A : Type} (l : list (option A)) : option (list A) :=
  match l with
  | [] => Some []
  | Some a :: rest => option_map (cons a) (all_some rest)
  | None :: _ => None
  end.

(** An [Optional[List[int]]]. *)
Definition as_int_list_opt (v : json) : option (option (list Z)) :=
  match v with
  | JNull => Some None
  | JList l => option_map Some (all_some (map as_int l))
  | _ => None
  end.

(** An [Optional[List[str]]]. *)
Definition as_str_list_opt (v : json) : option (option (list string)) :=
  match v with
  | JNull => Some None
  | JList l => option_map Some (all_some (map as_str l))
  | _ => None
  end.

(** What the first [try] block of [run_burst_booking] binds, and what it
    printed. *)
Record settings : Type := mkSettings {
  s_config : BurstConfig;
  s_credentials : json;
  s_target_times : option (list string);
  s_days_in_advance : Z;
  s_printed : list string
}.

Definition default_credentials : json :=
  JDict [("username", JStr "USERNAME"); ("password", JStr "PASSWORD")]%string.

(** The bindings of the two [except] branches. *)
Definition default_settings (printed : string) : settings :=
  mkSettings BurstConfig_default default_credentials (Some default_target_times)
    2 [printed].

(** [open(config_file)] and [json.load]: [open] raises
    [FileNotFoundError] or another [OSError] (a directory, a file that may
    not be read); [json.load] raises [json.JSONDecodeError], or another
    exception ([UnicodeDecodeError] on bytes that are not UTF-8,
    [RecursionError] on deep nesting, [ValueError] on a number of too many
    digits), or returns the value read. *)
Inductive config_source : Type :=
| FileNotFound
| OtherOSError (msg : string)
| JSONDecodeError
| OtherLoadError (msg : string)
| Loaded (config_data : json).

(** The first [try] block of [run_burst_booking] with its two handlers,
    which catch [FileNotFoundError] and [json.JSONDecodeError] and nothing
    else.  [max_concurrent_requests] is not read from the file. *)
Definition load_settings (config_file : string) (src : config_source)
    : outcome settings :=
  match src with
  | FileNotFound =>
      Returned (default_settings
        ("Configuration file " ++ config_file
         ++ " not found. Using default settings.")%string)
  | JSONDecodeError =>
      Returned (default_settings
        ("Error parsing " ++ config_file ++ ". Using default settings.")%string)
  | OtherOSError msg => Raised msg
  | OtherLoadError msg => Raised msg
  | Loaded config_data =>
      burst_cfg <-- of_result (py_get config_data "burst_config" (JDict [])) ;;
      v_offsets <-- of_result
        (py_get burst_cfg "burst_offsets" (JList (map JInt default_burst_offsets))) ;;
      v_interval <-- of_result (py_get burst_cfg "retry_interval_ms" (JInt 35)) ;;
      v_max_retry <-- of_result (py_get burst_cfg "max_retry_attempts" (JInt 50)) ;;
      v_window <-- of_result (py_get burst_cfg "booking_window_time" (JStr "23:00:00")) ;;
      v_cutoff <-- of_result (py_get burst_cfg "cutoff_seconds" (JInt 30)) ;;
      offsets <-- typed (as_int_list_opt v_offsets) ;;
      interval <-- typed (as_int v_interval) ;;
      max_retry <-- typed (as_int v_max_retry) ;;
      window <-- typed (as_str v_window) ;;
      cutoff <-- typed (as_number v_cutoff) ;;
      let config := BurstConfig_init offsets interval max_retry 10 window cutoff in
      creds <-- of_result (py_get config_data "credentials" default_credentials) ;;
      v_targets <-- of_result
        (py_get config_data "target_times" (JList (map JStr default_target_times))) ;;
      targets <-- typed (as_str_list_opt v_targets) ;;
      booking_settings <-- of_result (py_get config_data "booking_settings" (JDict [])) ;;
      v_days <-- of_result (py_get booking_settings "days_in_advance" (JInt 2)) ;;
      days <-- typed (as_int v_days) ;;
      Returned (mkSettings config creds targets days [])
  end.

(** [BurstFireTeeTimeBooker(config, credentials, target_times)] *)
Definition booker_of (st : settings) : Booker :=
  Booker_init (s_config st) (s_credentials st) (s_target_times st).

(** [run_burst_booking].  The target date is computed before the booker
    exists, outside any handler.  [session] is what setting up the booker
    and [initialize_session] do: they return, or raise what the browser
    session raised.  The [except] branch logs and raises again, and
    [cleanup] changes nothing the result depends on. *)
Definition run_burst_booking (pf : platform) (config_file : string)
    (src : config_source) (session : result unit) (envs : nat -> env)
    : outcome (burst_report * list BookingAttempt) :=
  st <-- load_settings config_file src ;;
  target_date <-- of_result (format_target_date pf (s_days_in_advance st)) ;;
  let booker := booker_of st in
  _ <-- of_result session ;;
  report <-- of_result (execute_burst_strategy pf booker target_date envs) ;;
  let successful_attempts := filter success (report_attempts report) in
  Returned (report, successful_attempts).

(** ** The classification the specification names *)

Inductive classification : Type :=
| Success
| RetryableRejection
| TerminalFailure
| TransportError.

(** A character with its letter case removed: a small letter counts as
    its capital. *)
Definition fold_case (c : ascii) : nat :=
  let n := nat_of_ascii c in
  if ((97 <=? n) && (n <=? 122))%nat then (n - 32)%nat else n.

(** Two characters are the same up to letter case. *)
Definition same_letter (a b : ascii) : bool := (fold_case a =? fold_case b)%nat.

(** [body] starts with [marker], up to letter case. *)
Fixpoint caseless_prefix (marker body : string) : bool :=
  match marker, body with
  | EmptyString, _ => true
  | String _ _, EmptyString => false
  | String m marker', String c body' => same_letter m c && caseless_prefix marker' body'
  end.

(** [marker] occurs in [body], up to letter case: the search compares the
    text as it is, character by character. *)
Fixpoint caseless_in (marker body : string) : bool :=
  caseless_prefix marker body
  || match body with
     | EmptyString => false
     | String _ body' => caseless_in marker body'
     end.

(** The Response Classifier in the specification's words: success on the
    status that secures the slot; a retryable rejection when the status is
    the rejected one and the body holds the marker, case-insensitively; a
    terminal failure on any other status. *)
Definition spec_classify (status : Z) (body : string) : classification :=
  if status =? 200 then Success
  else if (status =? 400) && caseless_in "booking not open" body
       then RetryableRejection
       else TerminalFailure.

(** ** Notions used in the statements *)

(** What [_make_booking_request] returns or raises on an outcome of its
    POST. *)
Definition request_result (r : net_outcome) : result (bool * Z * option string) :=
  match r with
  | Response status text =>
      if status =? 200 then Ok (true, status, None) else Ok (false, status, Some text)
  | ClientError msg => Ok (false, 0, Some msg)
  | OtherError msg => Exn msg
  end.

(** The outcomes after which the unit retries. *)
Definition retryable (r : net_outcome) : bool :=
  match r with
  | Response status text => is_booking_not_open status (Some text)
  | _ => false
  end.

(** The event loop's reachability. *)
Definition reachable {A : Type} : list (coro A) -> list (coro A) -> Prop :=
  clos_refl_trans (list (coro A)) loop_step.

Definition is_retry_log (ev : event) : bool :=
  match ev with
  | Logged (LogRetrying _) => true
  | _ => false
  end.

(** The loop of [_smart_retry] ended on its own guard after [k] retries from
    cursor [o]. *)
Definition loop_exhausted (e : env) (cutoff_time : Q) (remaining : nat)
    (o : cursor) (k : nat) : Prop :=
  (k <= remaining)%nat
  /\ (forall i, (i < k)%nat -> (clock e (ticks o + i) < cutoff_time)%Q)
  /\ (forall i, (i < k)%nat -> retryable (network e (posts o + i)) = true)
  /\ (k = remaining \/ (cutoff_time <= clock e (ticks o + k))%Q).

(** The loop of [_smart_retry] returned from inside its body at retry
    [k], counted from [0]. *)
Definition loop_stopped (e : env) (cutoff_time : Q) (remaining : nat)
    (o : cursor) (k : nat) : Prop :=
  (k < remaining)%nat
  /\ (forall i, (i <= k)%nat -> (clock e (ticks o + i) < cutoff_time)%Q)
  /\ (forall i, (i < k)%nat -> retryable (network e (posts o + i)) = true)
  /\ retryable (network e (posts o + k)) = false.

(** The record a unit starts from. *)
Definition first_record (attempt_start : Q) (offset : Z) : BookingAttempt :=
  mkBookingAttempt attempt_start offset 0 None false None None.

(** The record after an answer [(succ, st, err)] measured at [response_time]. *)
Definition answered (attempt_start : Q) (offset : Z) (response_time : Q)
    (succ : bool) (st : Z) (err : option string) : BookingAttempt :=
  mkBookingAttempt attempt_start offset response_time (Some st) succ err
    (Some response_time).

(** The cursor after [log_attempt] of a record with a round-trip latency. *)
Definition logged (a : BookingAttempt) (o : cursor) : cursor :=
  if truthy_str (error_message a)
  then record (Logged (LogWarning (or_empty (error_message a))))
         (record (Logged (LogAttempt a)) o)
  else record (Logged (LogAttempt a)) o.

(** The cursor of a unit when its first request has been answered. *)
Definition first_answer (e : env) (j : job) : cursor :=
  let wait_time := (fire_instant j - clock e 0)%Q in
  posted (job_target_date j) (job_tee_time j)
    (tick (if Qltb 0 wait_time
           then record (Slept wait_time) (tick cursor0)
           else tick cursor0)).

(** The record of a unit that made [n + 1] requests.  It is fixed by the
    start of the attempt, by the instant of the first answer and by the
    outcome of the last request alone: the success flag, the status code and
    the error detail are those of the last request, or those of the
    exhausted retry budget when the last answer was one more retryable
    rejection; the latency is the one of the first answer; and a request
    that raised leaves the status code as it was, [None] before the first
    answer and 400 after it. *)
Definition final_record (e : env) (j : job) (n : nat) : BookingAttempt :=
  let attempt_start := clock e 1 in
  let response_time := ((clock e 2 - attempt_start) * 1000)%Q in
  match request_result (network e n) with
  | Ok (s, st, err) =>
      if retryable (network e n)
      then answered attempt_start (job_offset_ms j) response_time false 400
             (snd (exhausted (Z.of_nat n)))
      else answered attempt_start (job_offset_ms j) response_time s st err
  | Exn msg =>
      match n with
      | O => set_error_message (Some msg) (first_record attempt_start (job_offset_ms j))
      | S _ => answered attempt_start (job_offset_ms j) response_time false 400 (Some msg)
      end
  end.

(** The mean latency in the specification's words: over all records,
    successes and failures alike. *)
Definition spec_mean (attempts : list BookingAttempt) : Q :=
  (py_sum (map response_time_ms attempts)
   / inject_Z (Z.of_nat (List.length attempts)))%Q.

(** The fastest successful record in the specification's words: a
    successful record of minimum latency, ties broken by the earliest
    actual fire timestamp. *)
Definition spec_fastest (attempts : list BookingAttempt) (f : BookingAttempt) : Prop :=
  In f attempts /\ success f = true
  /\ forall a, In a attempts -> success a = true ->
       (response_time_ms f < response_time_ms a)%Q
       \/ ((response_time_ms f == response_time_ms a)%Q /\ (timestamp f <= timestamp a)%Q).

(** A platform for the concrete runs below: today is 2025-07-22, day
    739454, and starts at epoch second 1753142400; the days it formats are
    the 10th to the 31st of July 2025. *)
Definition sample_platform : platform :=
  mkPlatform (fun h m s => inject_Z (1753142400 + 3600 * h + 60 * m + s))
    739454
    (fun n => ("07-" ++ str_of_int (n - 739432) ++ "-2025")%string).

(** A unit for which every request is answered with status 200; the clock
    advances by 10 ms at every reading. *)
Definition sample_env : env :=
  mkEnv (fun n => (inject_Z (Z.of_nat n) * (1 # 100))%Q) (fun _ => Response 200 "ok").

(** Two bookers that differ in [max_concurrent_requests] only. *)
Definition same_but_cap (self1 self2 : Booker) : Prop :=
  burst_offsets (config self1) = burst_offsets (config self2)
  /\ retry_interval_ms (config self1) = retry_interval_ms (config self2)
  /\ max_retry_attempts (config self1) = max_retry_attempts (config self2)
  /\ booking_window_time (config self1) = booking_window_time (config self2)
  /\ cutoff_seconds (config self1) = cutoff_seconds (config self2)
  /\ target_times self1 = target_times self2.

(** A booker whose configuration allows one concurrent request. *)
Definition capped_booker : Booker :=
  Booker_init (BurstConfig_init None 35 50 1 "23:00:00" 30) default_credentials None.

(** A unit whose every request is rejected with "Booking not open yet"; the
    clock advances by 10 ms at every reading. *)
Definition rejecting_env : env :=
  mkEnv (fun n => (inject_Z (Z.of_nat n) * (1 # 100))%Q)
    (fun _ => Response 400 "Booking not open yet").

(** The configuration of the retry scenario of the specification: retries
    20 ms apart, at most 3 of them, cutoff after 0.05 s. *)
Definition scenario_booker : Booker :=
  Booker_init (BurstConfig_init (Some [-10; 10]) 20 3 10 "23:00:00" (5 # 100))
    default_credentials (Some ["7:33"%string]).

(** ** The rest of the booker and its callers *)

(** [_extract_booking_api_url]: the first three fields of
    [current_url.split('/')], joined by the empty string, followed by the
    path of the endpoint. *)
Definition extract_booking_api_url (current_url : string) : string :=
  let base_url := firstn 3 (split_on "/" current_url) in
  (String.concat "" base_url ++ "/api/booking/book")%string.

(** A cookie as [driver.get_cookies()] gives it: the two keys the request
    reads. *)
Record cookie : Type := mkCookie {
  cookie_name : string;
  cookie_value : string
}.

(** [d[k] = v] on a [dict] of strings kept as its items in insertion
    order. *)
Fixpoint dict_set (k v : string) (d : list (string * string)) : list (string * string) :=
  match d with
  | [] => [(k, v)]
  | (k', v') :: rest =>
      if String.eqb k' k then (k', v) :: rest else (k', v') :: dict_set k v rest
  end.

(** [d.get(k)] *)
Fixpoint dict_get (k : string) (d : list (string * string)) : option string :=
  match d with
  | [] => None
  | (k', v) :: rest => if String.eqb k' k then Some v else dict_get k rest
  end.

(** The cookie conversion at the head of [_make_booking_request]:
    [session_cookies] is [None] until the session is initialized. *)
Definition cookie_dict (session_cookies : option (list cookie)) : list (string * string) :=
  match session_cookies with
  | Some ((_ :: _) as cookies) =>
      fold_left (fun d c => dict_set (cookie_name c) (cookie_value c) d) cookies []
  | _ => []
  end.

(** [book_tee_time_automated]: the value returned and the line printed.
    Every [Exception] of the run is printed and turned into [None]. *)
Definition book_tee_time_automated (pf : platform) (config_file : string)
    (src : config_source) (session : result unit) (envs : nat -> env)
    : outcome (option (list BookingAttempt) * list string) :=
  match run_burst_booking pf config_file src session envs with
  | Returned (_, successful_attempts) => Returned (Some successful_attempts, [])
  | Raised e => Returned (None, ["Booking failed: " ++ e]%string)
  | IllTyped => IllTyped
  end.

(** [d[key]]: [KeyError] on a [dict] without the key, [TypeError] on the
    other values. *)
Definition py_index (d : json) (key : string) : result json :=
  match d with
  | JDict items =>
      match items_get key items with
      | Some v => Ok v
      | None => Exn ("'" ++ key ++ "'")%string
      end
  | JList _ => Exn "list indices must be integers or slices, not str"
  | JStr _ => Exn "string indices must be integers"
  | _ => Exn "object is not subscriptable"
  end.

(** The configuration part of [main] in [example_usage.py], on the value
    read by [json.load]: the configuration, the credentials and the target
    times it binds. *)
Definition example_settings (config_data : json)
    : outcome (BurstConfig * json * option (list string)) :=
  burst_cfg <-- of_result (py_index config_data "burst_config") ;;
  v_offsets <-- of_result (py_index burst_cfg "burst_offsets") ;;
  v_interval <-- of_result (py_index burst_cfg "retry_interval_ms") ;;
  v_max_retry <-- of_result (py_index burst_cfg "max_retry_attempts") ;;
  v_concurrent <-- of_result (py_index burst_cfg "max_concurrent_requests") ;;
  v_window <-- of_result (py_index burst_cfg "booking_window_time") ;;
  v_cutoff <-- of_result (py_index burst_cfg "cutoff_seconds") ;;
  offsets <-- typed (as_int_list_opt v_offsets) ;;
  interval <-- typed (as_int v_interval) ;;
  max_retry <-- typed (as_int v_max_retry) ;;
  concurrent <-- typed (as_int v_concurrent) ;;
  window <-- typed (as_str v_window) ;;
  cutoff <-- typed (as_number v_cutoff) ;;
  let config := BurstConfig_init offsets interval max_retry concurrent window cutoff in
  creds <-- of_result (py_index config_data "credentials") ;;
  v_targets <-- of_result (py_index config_data "target_times") ;;
  targets <-- typed (as_str_list_opt v_targets) ;;
  Returned (config, creds, targets).

(** What [main] of [example_usage.py] prints at its end: the two counts of
    its results line, or the error it caught. *)
Inductive example_result : Type :=
| ExampleResults (n_successful n_attempts : nat)
| ExampleError (msg : string).

(** [main] of [example_usage.py], from the value read by [json.load]. *)
Definition example_main (pf : platform) (config_data : json)
    (session : result unit) (envs : nat -> env) : outcome example_result :=
  cfg <-- example_settings config_data ;;
  let booker := Booker_init (fst (fst cfg)) (snd (fst cfg)) (snd cfg) in
  match session with
  | Exn e => Returned (ExampleError e)
  | Ok _ =>
      match execute_burst_strategy pf booker "07-22-2025" envs with
      | Exn e => Returned (ExampleError e)
      | Ok report =>
          let attempts := report_attempts report in
          Returned (ExampleResults (List.length (filter success attempts))
                      (List.length attempts))
      end
  end.

(** ** Further notions used in the statements *)

(** What a unit did to the outside world, its log lines left out. *)
Definition actions (tr : list event) : list event :=
  filter (fun ev => match ev with Logged _ => false | _ => true end) tr.

(** [k] retries: each one a sleep of the retry interval, then the request. *)
Definition retry_ticks (self : Booker) (d t : string) (k : nat) : list event :=
  List.concat
    (repeat [Slept (inject_Z (retry_interval_ms (config self)) / 1000)%Q; Posted d t] k).


(** A field of a time of day written on two digits. *)
Definition two_digits (n : Z) : string :=
  String (ascii_of_nat (48 + Z.to_nat (n / 10)))
    (String (ascii_of_nat (48 + Z.to_nat (n mod 10))) EmptyString).

(** A time of day written [HH:MM:SS]. *)
Definition hh_mm_ss (h m s : Z) : string :=
  (two_digits h ++ ":" ++ two_digits m ++ ":" ++ two_digits s)%string.

(** No character of [s] is [c]. *)
Fixpoint without (c : ascii) (s : string) : bool :=
  match s with
  | EmptyString => true
  | String c' r => negb (Ascii.eqb c' c) && without c r
  end.

Definition is_dict (v : json) : bool :=
  match v with
  | JDict _ => true
  | _ => false
  end.

(** [cfg] with another [max_concurrent_requests]. *)
Definition with_cap (cap : Z) (cfg : BurstConfig) : BurstConfig :=
  mkBurstConfig (burst_offsets cfg) (retry_interval_ms cfg) (max_retry_attempts cfg)
    cap (booking_window_time cfg) (cutoff_seconds cfg).

(** A configuration file with every recognized key, as [json.load] reads
    it. *)
Definition sample_config_data : json :=
  JDict [ ("credentials", JDict [("username", JStr "golfer"); ("password", JStr "secret")]);
          ("target_times", JList [JStr "7:33"; JStr "7:42"]);
          ("burst_config",
           JDict [ ("burst_offsets", JList [JInt (-20); JInt 0; JInt 20]);
                   ("retry_interval_ms", JInt 40);
                   ("max_retry_attempts", JInt 25);
                   ("max_concurrent_requests", JInt 5);
                   ("booking_window_time", JStr "23:00:00");
                   ("cutoff_seconds", JInt 30) ]);
          ("booking_settings", JDict [("days_in_advance", JInt 2)]) ]%string.

(** An early unit: two rejections, then the window opens. *)
Definition opening_env : env :=
  mkEnv (fun n => (inject_Z (Z.of_nat n) * (1 # 100))%Q)
    (fun n => match n with
              | O | S O => Response 400 "Booking not open yet"
              | _ => Response 200 "booked"
              end).

(** * Properties *)

(** ** Running programs *)

Lemma run_cbind {A B : Type} (e : env) (c : coro A) (f : A -> coro B) (o : cursor) :
  run e (cbind c f) o = run e (f (fst (run e c o))) (snd (run e c o)).
Proof.
  revert o. induction c as [a | k IH | d k IH | d t k IH | l k IH]; intros o; simpl; auto.
Qed.

Lemma run_bind {St A B : Type} (e : env) (m : prog St A) (f : A -> prog St B) (s : St) (o : cursor) :
  run e (bind m f s) o =
  match run e (m s) o with
  | ((Ok a, s'), o') => run e (f a s') o'
  | ((Exn x, s'), o') => ((Exn x, s'), o')
  end.
Proof.
  unfold bind. rewrite run_cbind.
  destruct (run e (m s) o) as [[[a | x] s'] o']; reflexivity.
Qed.

Lemma run_try_except {St A : Type} (e : env) (m : prog St A) (h : string -> prog St A)
    (s : St) (o : cursor) :
  run e (try_except m h s) o =
  match run e (m s) o with
  | ((Ok a, s'), o') => ((Ok a, s'), o')
  | ((Exn x, s'), o') => run e (h x s') o'
  end.
Proof.
  unfold try_except. rewrite run_cbind.
  destruct (run e (m s) o) as [[[a | x] s'] o']; reflexivity.
Qed.

Lemma run_with_local {St St' A : Type} (e : env) (s0 : St') (m : prog St' A) (s : St) (o : cursor) :
  run e (with_local s0 m s) o =
  ((fst (fst (run e (m s0) o)), s), snd (run e (m s0) o)).
Proof.
  unfold with_local. rewrite run_cbind. reflexivity.
Qed.

Section Steps.

Context {St A : Type} (e : env) (s : St) (o : cursor).

Lemma run_ret_bind {B : Type} (b : B) (f : B -> prog St A) :
  run e (bind (ret b) f s) o = run e (f b s) o.
Proof. now rewrite run_bind. Qed.

Lemma run_raise_bind {B : Type} (msg : string) (f : B -> prog St A) :
  run e (bind (raise msg) f s) o = ((Exn msg, s), o).
Proof. now rewrite run_bind. Qed.

Lemma run_time_bind (f : Q -> prog St A) :
  run e (bind time f s) o = run e (f (clock e (ticks o)) s) (tick o).
Proof. now rewrite run_bind. Qed.

Lemma run_sleep_bind (d : Q) (f : unit -> prog St A) :
  run e (bind (sleep d) f s) o = run e (f tt s) (record (Slept d) o).
Proof. now rewrite run_bind. Qed.

Lemma run_emit_bind (l : log_entry) (f : unit -> prog St A) :
  run e (bind (emit l) f s) o = run e (f tt s) (record (Logged l) o).
Proof. now rewrite run_bind. Qed.

Lemma run_modify_bind (g : St -> St) (f : unit -> prog St A) :
  run e (bind (modify g) f s) o = run e (f tt (g s)) o.
Proof. now rewrite run_bind. Qed.

Lemma run_get_bind (f : St -> prog St A) :
  run e (bind get f s) o = run e (f s s) o.
Proof. now rewrite run_bind. Qed.

End Steps.

Lemma run_make_booking_request {St : Type} (e : env) (self : Booker) (d t : string)
    (s : St) (o : cursor) :
  run e (make_booking_request self d t s) o =
  ((request_result (network e (posts o)), s), posted d t o).
Proof.
  unfold make_booking_request. rewrite run_bind. simpl.
  destruct (network e (posts o)) as [status text | msg | msg]; simpl; auto.
  destruct (status =? 200); reflexivity.
Qed.

(** A run only extends the trace and only moves forward in [env]. *)
Lemma run_extends {A : Type} (e : env) (c : coro A) (o : cursor) :
  exists t, trace (snd (run e c o)) = trace o ++ t.
Proof.
  revert o. induction c as [a | k IH | d k IH | d t k IH | l k IH]; intros o; simpl.
  - exists []. now rewrite app_nil_r.
  - destruct (IH (clock e (ticks o)) (tick o)) as [t Ht]. exists t. exact Ht.
  - destruct (IH (record (Slept d) o)) as [t Ht]. exists (Slept d :: t).
    rewrite Ht. simpl. now rewrite <- app_assoc.
  - destruct (IH (network e (posts o)) (posted d t o)) as [t' Ht]. exists (Posted d t :: t').
    rewrite Ht. simpl. now rewrite <- app_assoc.
  - destruct (IH (record (Logged l) o)) as [t Ht]. exists (Logged l :: t).
    rewrite Ht. simpl. now rewrite <- app_assoc.
Qed.

Lemma Qltb_true (x y : Q) : Qltb x y = true <-> (x < y)%Q.
Proof.
  unfold Qltb. rewrite negb_true_iff. split.
  - intros H. apply Qnot_le_lt. intros Hle.
    apply Qle_bool_iff in Hle. congruence.
  - intros H. destruct (Qle_bool y x) eqn:E; auto.
    apply Qle_bool_iff in E. exfalso. exact (Qlt_not_le _ _ H E).
Qed.

Lemma Qltb_false (x y : Q) : Qltb x y = false <-> (y <= x)%Q.
Proof.
  unfold Qltb. rewrite negb_false_iff. apply Qle_bool_iff.
Qed.

(** ** Letter case *)

Lemma nat_of_ascii_inj (a b : ascii) : nat_of_ascii a = nat_of_ascii b -> a = b.
Proof.
  intros H. rewrite <- (ascii_nat_embedding a), <- (ascii_nat_embedding b). now rewrite H.
Qed.

(** Lower-casing a character and comparing it with a character that has
    no capital form is comparing the two up to letter case. *)
Lemma lower_ascii_same_letter (m c : ascii) :
  lower_ascii m = m ->
  Ascii.eqb m (lower_ascii c) = same_letter m c.
Proof.
  unfold lower_ascii, same_letter, fold_case. cbv zeta.
  pose proof (nat_ascii_bounded m) as Hm. pose proof (nat_ascii_bounded c) as Hc.
  intros Hstable.
  assert (Hnm : ~ (65 <= nat_of_ascii m <= 90)%nat).
  { intros Hr. destruct ((65 <=? nat_of_ascii m) && (nat_of_ascii m <=? 90))%nat eqn:E.
    - apply (f_equal nat_of_ascii) in Hstable.
      rewrite nat_ascii_embedding in Hstable by lia. lia.
    - apply andb_false_iff in E as [E | E]; apply Nat.leb_gt in E; lia. }
  destruct (Ascii.eqb m _) eqn:Eeq.
  - apply Ascii.eqb_eq in Eeq. symmetry. apply Nat.eqb_eq.
    destruct ((65 <=? nat_of_ascii c) && (nat_of_ascii c <=? 90))%nat eqn:Ec.
    + apply andb_true_iff in Ec as [E1 E2]. apply Nat.leb_le in E1, E2.
      apply (f_equal nat_of_ascii) in Eeq. rewrite nat_ascii_embedding in Eeq by lia.
      rewrite Eeq.
      replace ((97 <=? nat_of_ascii c + 32) && (nat_of_ascii c + 32 <=? 122))%nat with true
        by (symmetry; apply andb_true_iff; split; apply Nat.leb_le; lia).
      replace ((97 <=? nat_of_ascii c) && (nat_of_ascii c <=? 122))%nat with false
        by (symmetry; apply andb_false_iff; left; apply Nat.leb_gt; lia).
      lia.
    + now subst m.
  - symmetry. apply Nat.eqb_neq. intros Hfold.
    assert (Hne : m <> (if ((65 <=? nat_of_ascii c) && (nat_of_ascii c <=? 90))%nat
                        then ascii_of_nat (nat_of_ascii c + 32) else c))
      by (intros Habs; rewrite Habs, Ascii.eqb_refl in Eeq; discriminate).
    apply Hne. apply nat_of_ascii_inj.
    destruct ((65 <=? nat_of_ascii c) && (nat_of_ascii c <=? 90))%nat eqn:Ec.
    + apply andb_true_iff in Ec as [E1 E2]. apply Nat.leb_le in E1, E2.
      rewrite nat_ascii_embedding by lia.
      destruct ((97 <=? nat_of_ascii m) && (nat_of_ascii m <=? 122))%nat eqn:Em;
        destruct ((97 <=? nat_of_ascii c) && (nat_of_ascii c <=? 122))%nat eqn:Ec';
        try (apply andb_true_iff in Em as [Em1 Em2]; apply Nat.leb_le in Em1, Em2);
        try (apply andb_true_iff in Ec' as [Ec1 Ec2]; apply Nat.leb_le in Ec1, Ec2);
        lia.
    + assert (Hnc : ~ (65 <= nat_of_ascii c <= 90)%nat).
      { intros Hr. apply andb_false_iff in Ec as [E | E]; apply Nat.leb_gt in E; lia. }
      destruct ((97 <=? nat_of_ascii m) && (nat_of_ascii m <=? 122))%nat eqn:Em;
        destruct ((97 <=? nat_of_ascii c) && (nat_of_ascii c <=? 122))%nat eqn:Ec';
        try (apply andb_true_iff in Em as [Em1 Em2]; apply Nat.leb_le in Em1, Em2);
        try (apply andb_true_iff in Ec' as [Ec1 Ec2]; apply Nat.leb_le in Ec1, Ec2);
        lia.
Qed.

Lemma prefix_lower_caseless (marker body : string) :
  lower marker = marker ->
  String.prefix marker (lower body) = caseless_prefix marker body.
Proof.
  revert body. induction marker as [| m marker IH]; intros body Hstable.
  - destruct body; reflexivity.
  - simpl in Hstable. injection Hstable as Hm Hrest.
    destruct body as [| c body]; [reflexivity |].
    cbn [lower caseless_prefix].
    change (String.prefix (String m marker) (String (lower_ascii c) (lower body)))
      with (if ascii_dec m (lower_ascii c)
            then String.prefix marker (lower body) else false).
    rewrite <- (lower_ascii_same_letter m c Hm), (IH body Hrest).
    destruct (ascii_dec m (lower_ascii c)) as [Heq | Hne].
    + rewrite Heq, Ascii.eqb_refl. reflexivity.
    + apply Ascii.eqb_neq in Hne. now rewrite Hne.
Qed.

(** The test of the code, a search in the lower-cased body, finds what a
    search up to letter case finds in the body as it is. *)
Lemma contains_lower_caseless (marker body : string) :
  lower marker = marker ->
  contains marker (lower body) = caseless_in marker body.
Proof.
  intros Hstable. induction body as [| c body IH].
  - pose proof (prefix_lower_caseless marker ""%string Hstable) as Hp.
    cbn [lower] in Hp. cbn [lower contains caseless_in]. now rewrite Hp.
  - pose proof (prefix_lower_caseless marker (String c body) Hstable) as Hp.
    cbn [lower] in Hp. cbn [lower contains caseless_in]. now rewrite Hp, IH.
Qed.

(** The two tests after a retry request let the loop go on exactly on a
    retryable outcome. *)
Lemma loop_continues (r : net_outcome) (succ : bool) (st : Z) (err : option string) :
  request_result r = Ok (succ, st, err) ->
  retryable r =
  negb (succ || negb (st =? 400))
  && contains "booking not open" (lower (or_empty err)).
Proof.
  destruct r as [status text | msg | msg]; simpl; try discriminate.
  - destruct (status =? 200) eqn:E200; intros H; inversion H; subst; clear H.
    + apply Z.eqb_eq in E200. subst st. reflexivity.
    + unfold is_booking_not_open. simpl. now rewrite negb_involutive.
  - intros H; inversion H; subst. reflexivity.
Qed.

Lemma raising_not_retryable (r : net_outcome) (msg : string) :
  request_result r = Exn msg -> retryable r = false.
Proof.
  destruct r as [status text | m | m]; simpl; auto.
  destruct (status =? 200); discriminate.
Qed.

Section RetryLoop.

Context {St : Type} (e : env) (self : Booker) (d t : string) (cutoff_time : Q).

(** Every run of the retry loop ends in one of the two ways, and leaves the
    caller's object untouched. *)
Lemma retry_loop_cases (remaining : nat) :
  forall (retry_count : Z) (s : St) (o : cursor),
    let res := run e (retry_loop self d t cutoff_time remaining retry_count s) o in
    snd (fst res) = s
    /\ ((exists k, loop_exhausted e cutoff_time remaining o k
                   /\ fst (fst res) = Ok (exhausted (retry_count + Z.of_nat k))
                   /\ posts (snd res) = (posts o + k)%nat)
        \/ (exists k, loop_stopped e cutoff_time remaining o k
                      /\ fst (fst res) = request_result (network e (posts o + k))
                      /\ posts (snd res) = (posts o + S k)%nat)).
Proof.
  unfold loop_exhausted, loop_stopped.
  induction remaining as [| r IH]; intros retry_count s o; cbv zeta.
  - simpl. split; auto. left. exists 0%nat.
    rewrite Z.add_0_r, Nat.add_0_r. repeat split; auto; intros; lia.
  - cbn [retry_loop]. rewrite run_time_bind.
    destruct (Qltb (clock e (ticks o)) cutoff_time) eqn:Enow.
    2:{ simpl. split; auto. left. exists 0%nat.
        rewrite Z.add_0_r, !Nat.add_0_r. repeat split; auto; try (intros; lia).
        right. now apply Qltb_false. }
    apply Qltb_true in Enow.
    rewrite run_sleep_bind, run_bind, run_make_booking_request.
    simpl posts.
    assert (Hstop : forall (rr : result (bool * Z * option string)) (n : nat),
               retryable (network e (posts o)) = false ->
               rr = request_result (network e (posts o)) ->
               n = S (posts o) ->
               exists k, loop_stopped e cutoff_time (S r) o k
                 /\ rr = request_result (network e (posts o + k))
                 /\ n = (posts o + S k)%nat).
    { intros rr n Hnr Hres Hposts. exists 0%nat. unfold loop_stopped.
      rewrite !Nat.add_0_r. repeat split; auto; try lia.
      intros i Hi. replace i with 0%nat by lia. now rewrite Nat.add_0_r. }
    unfold loop_stopped in Hstop.
    destruct (request_result (network e (posts o))) as [[[succ st] err] | msg] eqn:Ereq.
    2:{ split; [reflexivity | right; apply Hstop; auto].
        eapply raising_not_retryable; eauto. }
    pose proof (loop_continues _ _ _ _ Ereq) as Hcont.
    destruct (succ || negb (st =? 400)) eqn:E1.
    { simpl. split; [reflexivity | right; apply Hstop; auto]. }
    destruct (negb (contains "booking not open" (lower (or_empty err)))) eqn:E2.
    { simpl. split; [reflexivity | right; apply Hstop; auto].
      rewrite Hcont. apply negb_true_iff in E2. rewrite E2. apply andb_false_r. }
    apply negb_false_iff in E2. rewrite E2 in Hcont. simpl in Hcont.
    specialize (IH (retry_count + 1) s
                  (posted d t (record (Slept (inject_Z (retry_interval_ms (config self)) / 1000)%Q) (tick o)))).
    cbv zeta in IH. destruct IH as [Hs [[k [Hex [Hres Hposts]]] | [k [Hst [Hres Hposts]]]]].
    + split; auto. left. exists (S k).
      destruct Hex as [Hle [Hclk [Hnet Hend]]]. simpl in Hclk, Hnet, Hend, Hposts.
      split; [| split].
      * split; [lia |]. split; [| split].
        -- intros [| i] Hi; [now rewrite Nat.add_0_r |].
           rewrite Nat.add_succ_r. apply Hclk. lia.
        -- intros [| i] Hi; [now rewrite Nat.add_0_r |].
           rewrite Nat.add_succ_r. apply Hnet. lia.
        -- destruct Hend as [-> | Hend]; [now left | right].
           now rewrite Nat.add_succ_r.
      * rewrite Hres. do 2 f_equal. lia.
      * rewrite Hposts. lia.
    + split; auto. right. exists (S k).
      destruct Hst as [Hlt [Hclk [Hnet Hlast]]]. simpl in Hclk, Hnet, Hlast, Hposts, Hres.
      split; [| split].
      * split; [lia |]. split; [| split].
        -- intros [| i] Hi; [now rewrite Nat.add_0_r |].
           rewrite Nat.add_succ_r. apply Hclk. lia.
        -- intros [| i] Hi; [now rewrite Nat.add_0_r |].
           rewrite Nat.add_succ_r. apply Hnet. lia.
        -- now rewrite Nat.add_succ_r.
      * rewrite Hres. now rewrite Nat.add_succ_r.
      * rewrite Hposts. lia.
Qed.

End RetryLoop.

(** ** The run of one unit *)

Lemma run_if_sleep_bind {St A : Type} (e : env) (b : bool) (w : Q)
    (f : unit -> prog St A) (s : St) (o : cursor) :
  run e (bind (if b then sleep w else ret tt) f s) o =
  run e (f tt s) (if b then record (Slept w) o else o).
Proof.
  destruct b; [apply run_sleep_bind | apply run_ret_bind].
Qed.

Lemma run_log_attempt (e : env) (a : BookingAttempt) (q : Q) (o : cursor) :
  round_trip_latency_ms a = Some q ->
  run e (log_attempt a) o = ((Ok tt, a), logged a o).
Proof.
  intros Hq. unfold log_attempt. rewrite run_get_bind, Hq, run_emit_bind.
  unfold logged. destruct (truthy_str (error_message a)); reflexivity.
Qed.

Lemma smart_retry_state {St : Type} (e : env) (self : Booker) (d t : string)
    (start : Q) (s : St) (o : cursor) :
  snd (fst (run e (smart_retry self d t start s) o)) = s.
Proof.
  unfold smart_retry. apply retry_loop_cases.
Qed.

(** What a unit returns and does, by the answer to its first request and,
    when that answer is a retryable rejection, by what [_smart_retry]
    returns or raises. *)
Lemma run_unit_eq (self : Booker) (e : env) (j : job) :
  run_unit self e j =
  let off := job_offset_ms j in
  let start := clock e 1 in
  let o2 := first_answer e j in
  match request_result (network e 0) with
  | Exn msg =>
      (Ok (set_error_message (Some msg) (first_record start off)),
       record (Logged (LogException msg)) o2)
  | Ok (succ, st, err) =>
      let rt := ((clock e 2 - start) * 1000)%Q in
      let a1 := answered start off rt succ st err in
      if is_booking_not_open st err then
        let res := run e (smart_retry self (job_target_date j) (job_tee_time j) start a1)
                     (record (Logged (LogRetrying off)) (tick o2)) in
        match fst (fst res) with
        | Ok (s', st', err') =>
            let a2 := answered start off rt s' st' err' in
            (Ok a2, logged a2 (snd res))
        | Exn msg =>
            (Ok (set_error_message (Some msg) a1),
             record (Logged (LogException msg)) (snd res))
        end
      else (Ok a1, logged a1 (tick o2))
  end.
Proof.
  destruct j as [base off d t].
  unfold run_unit, unit_of, schedule_booking_attempt, first_answer, fire_instant.
  cbn [job_base_time job_offset_ms job_target_date job_tee_time].
  rewrite run_time_bind, run_if_sleep_bind, run_time_bind, run_with_local.
  change (ticks cursor0) with 0%nat.
  set (w := (execution_time base off - clock e 0)%Q).
  set (o1 := if Qltb 0 w then record (Slept w) (tick cursor0) else tick cursor0).
  assert (Ht1 : ticks o1 = 1%nat) by (unfold o1; destruct (Qltb 0 w); reflexivity).
  assert (Hp1 : posts o1 = 0%nat) by (unfold o1; destruct (Qltb 0 w); reflexivity).
  rewrite Ht1.
  rewrite run_bind, run_try_except, run_bind, run_make_booking_request.
  cbn [posts tick]. rewrite Hp1.
  set (o2 := posted d t (tick o1)).
  destruct (request_result (network e 0)) as [[[succ st] err] | msg].
  2:{ rewrite run_modify_bind. reflexivity. }
  rewrite run_time_bind. replace (ticks o2) with 2%nat by (simpl; now rewrite Ht1).
  rewrite !run_modify_bind. cbv beta.
  change (set_round_trip_latency_ms _ _)
    with (answered (clock e 1) off ((clock e 2 - clock e 1) * 1000)%Q succ st err).
  cbv zeta.
  set (a1 := answered _ _ _ succ st err).
  rewrite run_bind.
  destruct (is_booking_not_open st err).
  - rewrite run_emit_bind, run_bind.
    pose proof (smart_retry_state e self d t (clock e 1) a1
                  (record (Logged (LogRetrying off)) (tick o2))) as Hstate.
    destruct (run e (smart_retry self d t (clock e 1) a1)
                (record (Logged (LogRetrying off)) (tick o2)))
      as [[[[[s' st'] err'] | msg] a'] o'].
    + simpl in Hstate. subst a'. rewrite !run_modify_bind.
      cbn [fst snd].
      change (set_error_message err' (set_status_code (Some st') (set_success s' a1)))
        with (answered (clock e 1) off ((clock e 2 - clock e 1) * 1000)%Q s' st' err').
      cbn [run modify ret].
      erewrite run_log_attempt by reflexivity. reflexivity.
    + simpl in Hstate. subst a'. cbn [fst snd].
      rewrite run_modify_bind. reflexivity.
  - cbn [run ret]. erewrite run_log_attempt by reflexivity. reflexivity.
Qed.

Lemma posts_logged (a : BookingAttempt) (o : cursor) : posts (logged a o) = posts o.
Proof. unfold logged. destruct (truthy_str (error_message a)); reflexivity. Qed.

Lemma trace_logged (a : BookingAttempt) (o : cursor) :
  exists rest, trace (logged a o) = trace o ++ Logged (LogAttempt a) :: rest
               /\ existsb is_retry_log rest = false.
Proof.
  unfold logged. destruct (truthy_str (error_message a)); simpl.
  - exists [Logged (LogWarning (or_empty (error_message a)))].
    now rewrite <- app_assoc.
  - now exists [].
Qed.

Lemma trace_first_answer (e : env) (j : job) :
  trace (first_answer e j) =
  (if Qltb 0 (fire_instant j - clock e 0)
   then [Slept (fire_instant j - clock e 0)%Q] else [])
  ++ [Posted (job_target_date j) (job_tee_time j)].
Proof.
  unfold first_answer. cbv zeta.
  destruct (Qltb 0 (fire_instant j - clock e 0)); reflexivity.
Qed.

Lemma ticks_first_answer (e : env) (j : job) : ticks (first_answer e j) = 2%nat.
Proof.
  unfold first_answer. cbv zeta.
  destruct (Qltb 0 (fire_instant j - clock e 0)); reflexivity.
Qed.

Lemma posts_first_answer (e : env) (j : job) : posts (first_answer e j) = 1%nat.
Proof.
  unfold first_answer. cbv zeta.
  destruct (Qltb 0 (fire_instant j - clock e 0)); reflexivity.
Qed.

(** The retry test of the unit is the test [retryable] of the first outcome. *)
Lemma retryable_first (r : net_outcome) (succ : bool) (st : Z) (err : option string) :
  request_result r = Ok (succ, st, err) ->
  retryable r = is_booking_not_open st err.
Proof.
  destruct r as [status text | msg | msg]; simpl; try discriminate.
  - destruct (status =? 200) eqn:E; intros H; inversion H; subst; auto.
    apply Z.eqb_eq in E. subst st. reflexivity.
  - intros H; inversion H; subst. reflexivity.
Qed.

Lemma retryable_is_400 (r : net_outcome) :
  retryable r = true ->
  exists text, r = Response 400 text
               /\ contains "booking not open" (lower text) = true
               /\ request_result r = Ok (false, 400, Some text).
Proof.
  destruct r as [status text | msg | msg]; simpl; try discriminate.
  unfold is_booking_not_open. intros H. apply andb_true_iff in H as [H4 Hc].
  apply Z.eqb_eq in H4. subst status. exists text. simpl. auto.
Qed.

(** Whatever a unit observes, it starts by suspending until its fire
    instant, or fires at once when that instant has passed. *)
Lemma run_unit_trace (self : Booker) (e : env) (j : job) :
  exists rest, trace (snd (run_unit self e j)) = trace (first_answer e j) ++ rest.
Proof.
  rewrite run_unit_eq. cbv zeta.
  remember (first_answer e j) as o2 eqn:Ho2. clear Ho2.
  destruct (request_result (network e 0)) as [[[succ st] err] | msg].
  2:{ eexists. reflexivity. }
  destruct (is_booking_not_open st err).
  - match goal with |- context [run e ?c ?o] =>
      destruct (run_extends e c o) as [t1 Ht1]; destruct (run e c o) as [[r a'] o'] end.
    simpl in Ht1. simpl fst. simpl snd.
    destruct r as [[[s' st'] err'] | msg].
    + destruct (trace_logged (answered (clock e 1) (job_offset_ms j)
                  ((clock e 2 - clock e 1) * 1000)%Q s' st' err') o') as [rest [Hr _]].
      simpl snd. rewrite Hr, Ht1, <- !app_assoc. eexists. reflexivity.
    + simpl. rewrite Ht1, <- !app_assoc. eexists. reflexivity.
  - match goal with |- context [logged ?a ?o] =>
      destruct (trace_logged a o) as [rest [Hr _]] end.
    simpl snd. rewrite Hr. simpl. eexists. reflexivity.
Qed.

Lemma actions_app (l1 l2 : list event) : actions (l1 ++ l2) = actions l1 ++ actions l2.
Proof. apply filter_app. Qed.

Lemma actions_logged (a : BookingAttempt) (o : cursor) :
  actions (trace (logged a o)) = actions (trace o).
Proof.
  unfold logged. destruct (truthy_str (error_message a)); simpl;
    rewrite !actions_app; simpl; now rewrite !app_nil_r.
Qed.

Lemma actions_first_answer (e : env) (j : job) :
  actions (trace (first_answer e j)) = trace (first_answer e j).
Proof.
  rewrite trace_first_answer.
  destruct (Qltb 0 (fire_instant j - clock e 0)); reflexivity.
Qed.

(** The retry loop does nothing but sleep the interval and repeat the
    request, at most [remaining] times. *)
Lemma retry_loop_actions {St : Type} (e : env) (self : Booker) (d t : string)
    (cutoff_time : Q) (remaining : nat) :
  forall (retry_count : Z) (s : St) (o : cursor),
    exists k,
      (k <= remaining)%nat
      /\ posts (snd (run e (retry_loop self d t cutoff_time remaining retry_count s) o))
         = (posts o + k)%nat
      /\ actions (trace (snd (run e (retry_loop self d t cutoff_time remaining
                                       retry_count s) o)))
         = actions (trace o) ++ retry_ticks self d t k.
Proof.
  induction remaining as [| r IH]; intros retry_count s o.
  - exists 0%nat. simpl. rewrite Nat.add_0_r, app_nil_r. auto.
  - cbn [retry_loop]. rewrite run_time_bind.
    destruct (Qltb (clock e (ticks o)) cutoff_time).
    2:{ exists 0%nat. simpl. rewrite Nat.add_0_r, app_nil_r. split; [lia | auto]. }
    rewrite run_sleep_bind, run_bind, run_make_booking_request.
    set (o' := posted d t _).
    assert (Hone : posts o' = (posts o + 1)%nat
                   /\ actions (trace o') = actions (trace o) ++ retry_ticks self d t 1).
    { unfold o'. simpl. split; [lia |]. rewrite !actions_app. simpl.
      now rewrite <- app_assoc. }
    destruct Hone as [Hp Ha].
    assert (Hstop : exists k, (k <= S r)%nat /\ posts o' = (posts o + k)%nat
                      /\ actions (trace o') = actions (trace o) ++ retry_ticks self d t k).
    { exists 1%nat. split; [lia | auto]. }
    destruct (request_result _) as [[[succ st] err] | msg]; [| exact Hstop].
    destruct (succ || negb (st =? 400)); [exact Hstop |].
    destruct (negb _); [exact Hstop |].
    destruct (IH (retry_count + 1) s o') as [k [Hk [Hposts Hact]]].
    exists (S k). split; [lia |]. split; [rewrite Hposts, Hp; lia |].
    rewrite Hact, Ha, <- app_assoc. reflexivity.
Qed.

Lemma run_unit_actions (self : Booker) (e : env) (j : job) :
  exists k,
    (k <= Z.to_nat (max_retry_attempts (config self)))%nat
    /\ posts (snd (run_unit self e j)) = S k
    /\ actions (trace (snd (run_unit self e j)))
       = trace (first_answer e j)
         ++ retry_ticks self (job_target_date j) (job_tee_time j) k.
Proof.
  rewrite run_unit_eq. cbv zeta.
  pose proof (posts_first_answer e j) as Hp.
  pose proof (actions_first_answer e j) as Ha.
  remember (first_answer e j) as o2 eqn:Ho2. clear Ho2.
  assert (Hnone : forall o, posts o = posts o2 -> actions (trace o) = actions (trace o2) ->
            exists k, (k <= Z.to_nat (max_retry_attempts (config self)))%nat
              /\ posts o = S k
              /\ actions (trace o)
                 = trace o2 ++ retry_ticks self (job_target_date j) (job_tee_time j) k).
  { intros o Hpo Hao. exists 0%nat. simpl. rewrite app_nil_r, Hpo, Hao, Hp, Ha.
    split; [lia | auto]. }
  destruct (request_result (network e 0)) as [[[succ st] err] | msg].
  2:{ cbn [snd]. apply Hnone; simpl; [reflexivity |].
      rewrite actions_app. simpl. now rewrite app_nil_r. }
  destruct (is_booking_not_open st err).
  2:{ cbn [snd]. apply Hnone; [now rewrite posts_logged | now rewrite actions_logged]. }
  unfold smart_retry.
  match goal with |- context [run e (retry_loop self ?d ?t ?c ?m ?rc ?s) ?o] =>
    destruct (retry_loop_actions e self d t c m rc s o) as [k [Hk [Hposts Hact]]];
    remember (run e (retry_loop self d t c m rc s) o) as res eqn:Hres; clear Hres
  end.
  simpl posts in Hposts. simpl trace in Hact.
  rewrite actions_app in Hact. simpl in Hact. rewrite app_nil_r, Ha in Hact.
  exists k. split; [exact Hk |].
  destruct (fst (fst res)) as [[[s' st'] err'] | msg]; cbn [snd].
  - rewrite posts_logged, actions_logged, Hposts, Hp, Hact. split; [lia | reflexivity].
  - simpl. rewrite actions_app, Hposts, Hp, Hact. simpl. rewrite app_nil_r.
    split; [lia | reflexivity].
Qed.

(** A unit that retries ends in one of two ways, told on its own clock
    readings and answers: the loop gave up after [k] retries, or retry
    [k + 1] got an answer that is not a retryable rejection. *)
Lemma run_unit_retry_cases (self : Booker) (e : env) (j : job) :
  retryable (network e 0) = true ->
  let cutoff_time := (clock e 1 + cutoff_seconds (config self))%Q in
  let limit := Z.to_nat (max_retry_attempts (config self)) in
  let rt := ((clock e 2 - clock e 1) * 1000)%Q in
  exists k,
    ((k <= limit)%nat
     /\ (forall i, (i < k)%nat -> (clock e (3 + i) < cutoff_time)%Q)
     /\ (forall i, (i < k)%nat -> retryable (network e (S i)) = true)
     /\ (k = limit \/ (cutoff_time <= clock e (3 + k))%Q)
     /\ fst (run_unit self e j)
        = Ok (answered (clock e 1) (job_offset_ms j) rt false 400
                (snd (exhausted (Z.of_nat k))))
     /\ posts (snd (run_unit self e j)) = S k)
    \/ ((k < limit)%nat
        /\ (forall i, (i <= k)%nat -> (clock e (3 + i) < cutoff_time)%Q)
        /\ (forall i, (i < k)%nat -> retryable (network e (S i)) = true)
        /\ retryable (network e (S k)) = false
        /\ fst (run_unit self e j)
           = Ok (match request_result (network e (S k)) with
                 | Ok (s, st, err) => answered (clock e 1) (job_offset_ms j) rt s st err
                 | Exn msg =>
                     answered (clock e 1) (job_offset_ms j) rt false 400 (Some msg)
                 end)
        /\ posts (snd (run_unit self e j)) = S (S k)).
Proof.
  intros Hfirst. cbv zeta. rewrite run_unit_eq. cbv zeta.
  destruct (retryable_is_400 _ Hfirst) as [text [_ [Hc Hreq]]]. rewrite Hreq.
  replace (is_booking_not_open 400 (Some text)) with true
    by (unfold is_booking_not_open; simpl; now rewrite Hc).
  pose proof (posts_first_answer e j) as Hp. pose proof (ticks_first_answer e j) as Ht.
  remember (first_answer e j) as o2 eqn:Ho2. clear Ho2.
  unfold smart_retry.
  match goal with |- context [run e (retry_loop self ?d ?t ?c ?n ?rc ?s) ?o] =>
    pose proof (retry_loop_cases e self d t c n rc s o) as Hcases;
    remember (run e (retry_loop self d t c n rc s) o) as res eqn:Hres; clear Hres
  end.
  cbv zeta in Hcases. unfold loop_exhausted, loop_stopped in Hcases.
  simpl posts in Hcases. simpl ticks in Hcases. rewrite Hp, Ht in Hcases.
  destruct Hcases as [_ [[k [Hex [Hr Hposts]]] | [k [Hst [Hr Hposts]]]]]; exists k.
  - left. destruct Hex as [Hle [Hclk [Hnet Hend]]]. rewrite Hr, Z.add_0_l.
    cbn [exhausted fst snd]. rewrite posts_logged, Hposts. repeat split; auto.
  - right. destruct Hst as [Hlt [Hclk [Hnet Hlast]]].
    change (1 + k)%nat with (S k) in *.
    destruct (fst (fst res)) as [[[s' st'] err'] | msg] eqn:Eres; cbn [snd];
      rewrite <- Hr.
    + rewrite posts_logged, Hposts. repeat split; auto.
    + simpl posts. rewrite Hposts. repeat split; auto.
Qed.

(** The record of a unit is the one fixed by its first answer and its last
    request. *)
Lemma run_unit_final_record (self : Booker) (e : env) (j : job) :
  (1 <= posts (snd (run_unit self e j)))%nat
  /\ fst (run_unit self e j)
     = Ok (final_record e j (posts (snd (run_unit self e j)) - 1)).
Proof.
  destruct (retryable (network e 0)) eqn:Hfirst.
  - destruct (run_unit_retry_cases self e j Hfirst) as [k [Hex | Hst]]; cbv zeta in *.
    + destruct Hex as [_ [_ [Hnet [_ [Hrec Hposts]]]]]. rewrite Hrec, Hposts.
      split; [lia |]. replace (S k - 1)%nat with k by lia.
      assert (Hk : retryable (network e k) = true).
      { destruct k as [| k']; [exact Hfirst | apply Hnet; lia]. }
      unfold final_record. cbv zeta.
      destruct (retryable_is_400 _ Hk) as [text [_ [_ Hreq]]].
      now rewrite Hreq, Hk.
    + destruct Hst as [_ [_ [_ [Hlast [Hrec Hposts]]]]]. rewrite Hrec, Hposts.
      split; [lia |]. replace (S (S k) - 1)%nat with (S k) by lia.
      unfold final_record. cbv zeta. rewrite Hlast.
      destruct (request_result (network e (S k))) as [[[s st] err] | msg]; reflexivity.
  - rewrite run_unit_eq. cbv zeta. unfold final_record. cbv zeta.
    pose proof (posts_first_answer e j) as Hp.
    remember (first_answer e j) as o2 eqn:Ho2. clear Ho2.
    destruct (request_result (network e 0)) as [[[succ st] err] | msg] eqn:E0.
    + rewrite <- (retryable_first _ _ _ _ E0), Hfirst. cbn [fst snd].
      rewrite posts_logged. simpl posts. rewrite Hp. simpl.
      rewrite E0, Hfirst. split; [lia | reflexivity].
    + cbn [fst snd]. simpl posts. rewrite Hp. simpl. rewrite E0.
      split; [lia | reflexivity].
Qed.

(** ** Scheduler *)

Lemma fold_append_map {A B : Type} (g : A -> B) (l : list A) (acc : list B) :
  fold_left (fun tasks y => tasks ++ [g y]) l acc = acc ++ map g l.
Proof.
  revert acc. induction l as [| y l IH]; intros acc; simpl.
  - now rewrite app_nil_r.
  - rewrite IH, <- app_assoc. reflexivity.
Qed.

Lemma booking_tasks_flat (self : Booker) (booking_time : Q) (target_date : string) :
  booking_tasks self booking_time target_date =
  flat_map (fun offset => map (mkJob booking_time offset target_date) (target_times self))
    (burst_offsets (config self)).
Proof.
  unfold booking_tasks.
  enough (H : forall offsets acc,
             fold_left
               (fun tasks offset =>
                  fold_left
                    (fun tasks tee => tasks ++ [mkJob booking_time offset target_date tee])
                    (target_times self) tasks)
               offsets acc
             = acc ++ flat_map
                   (fun offset => map (mkJob booking_time offset target_date)
                                    (target_times self)) offsets)
    by apply (H _ []).
  induction offsets as [| x l IH]; intros acc; simpl.
  - now rewrite app_nil_r.
  - rewrite IH, fold_append_map, <- app_assoc. reflexivity.
Qed.

Lemma booking_tasks_pairs (self : Booker) (booking_time : Q) (target_date : string) :
  map (fun j => (job_offset_ms j, job_tee_time j))
    (booking_tasks self booking_time target_date)
  = list_prod (burst_offsets (config self)) (target_times self).
Proof.
  rewrite booking_tasks_flat.
  induction (burst_offsets (config self)) as [| x l IH]; simpl; auto.
  rewrite map_app, IH, map_map. reflexivity.
Qed.

Lemma booking_tasks_base (self : Booker) (booking_time : Q) (target_date : string) (j : job) :
  In j (booking_tasks self booking_time target_date) ->
  job_base_time j = booking_time /\ job_target_date j = target_date.
Proof.
  rewrite booking_tasks_flat, in_flat_map. intros [x [_ Hin]].
  apply in_map_iff in Hin as [tee [<- _]]. auto.
Qed.

(** C1. The scheduler produces one job per pair of the cross-product of the
    configured offsets and the targets, in order and with duplicates kept.
    The fire instant of a job is the window-open instant plus its offset in
    milliseconds, whatever the target; the unit of the job suspends until
    that instant, and fires at once when the instant has passed. *)
Theorem scheduler_cross_product_fire_instant
    (self : Booker) (booking_time : Q) (target_date : string) :
  let tasks := booking_tasks self booking_time target_date in
  map (fun j => (job_offset_ms j, job_tee_time j)) tasks
  = list_prod (burst_offsets (config self)) (target_times self)
  /\ List.length tasks
     = (List.length (burst_offsets (config self)) * List.length (target_times self))%nat
  /\ (forall j, In j tasks ->
        (fire_instant j == booking_time + inject_Z (job_offset_ms j) * (1 # 1000))%Q)
  /\ (forall j1 j2, In j1 tasks -> In j2 tasks ->
        job_offset_ms j1 = job_offset_ms j2 -> fire_instant j1 = fire_instant j2)
  /\ (forall j e, In j tasks ->
        let tr := trace (snd (run_unit self e j)) in
        ((clock e 0 < fire_instant j)%Q ->
           exists w rest, tr = Slept w :: rest /\ (clock e 0 + w == fire_instant j)%Q)
        /\ ((fire_instant j <= clock e 0)%Q ->
              exists rest, tr = Posted target_date (job_tee_time j) :: rest)).
Proof.
  intros tasks. split; [apply booking_tasks_pairs |]. split.
  { rewrite <- (length_map (fun j => (job_offset_ms j, job_tee_time j)) tasks).
    unfold tasks. rewrite booking_tasks_pairs. apply length_prod. }
  split.
  { intros j Hj. apply booking_tasks_base in Hj as [Hb _].
    unfold fire_instant, execution_time. rewrite Hb. reflexivity. }
  split.
  { intros j1 j2 H1 H2 Hoff.
    apply booking_tasks_base in H1 as [Hb1 _]. apply booking_tasks_base in H2 as [Hb2 _].
    unfold fire_instant. now rewrite Hb1, Hb2, Hoff. }
  intros j e Hj tr. apply booking_tasks_base in Hj as [_ Hd].
  destruct (run_unit_trace self e j) as [rest Hrest]. fold tr in Hrest.
  rewrite trace_first_answer in Hrest. split.
  - intros Hlt.
    assert (Hw : Qltb 0 (fire_instant j - clock e 0) = true).
    { apply Qltb_true. lra. }
    rewrite Hw in Hrest. simpl in Hrest. eexists. eexists. split; [exact Hrest |]. lra.
  - intros Hle.
    assert (Hw : Qltb 0 (fire_instant j - clock e 0) = false).
    { apply Qltb_false. lra. }
    rewrite Hw, Hd in Hrest. simpl in Hrest. eexists. exact Hrest.
Qed.

(** ** Dispatcher: one record per job *)

Lemma gather_length (self : Booker) (envs : nat -> env) (tasks : list job) :
  forall i, List.length (gather self envs i tasks) = List.length tasks.
Proof.
  induction tasks as [| j rest IH]; intros i; simpl; auto.
Qed.

Lemma gather_nth (self : Booker) (envs : nat -> env) (tasks : list job) :
  forall i n j,
    nth_error tasks n = Some j ->
    nth_error (gather self envs i tasks) n = Some (fst (run_unit self (envs (i + n)%nat) j)).
Proof.
  induction tasks as [| j0 rest IH]; intros i n j Hn.
  - destruct n; discriminate.
  - destruct n as [| n]; simpl in *.
    + inversion Hn; subst. now rewrite Nat.add_0_r.
    + rewrite (IH (S i) n j Hn). do 4 f_equal. lia.
Qed.

(** The units never raise: the results gathered are records only. *)
Lemma gather_records (self : Booker) (envs : nat -> env) (tasks : list job) :
  forall i, exists attempts, gather self envs i tasks = map Ok attempts.
Proof.
  induction tasks as [| j rest IH]; intros i; simpl.
  - now exists [].
  - destruct (IH (S i)) as [attempts Hrest].
    destruct (run_unit_final_record self (envs i) j) as [_ Ha].
    eexists (_ :: attempts). simpl. now rewrite Ha, Hrest.
Qed.

Lemma keep_records (attempts : list BookingAttempt) :
  flat_map (fun r : result BookingAttempt =>
              match r with Ok a => [a] | Exn _ => [] end) (map Ok attempts) = attempts
  /\ flat_map (fun r : result BookingAttempt =>
                 match r with Ok _ => [] | Exn e => [e] end) (map Ok attempts) = [].
Proof.
  induction attempts as [| a l [IH1 IH2]]; simpl; auto.
  now rewrite IH1, IH2.
Qed.

(** What a completed burst returns: the records of the units, one per job
    and in the order of the jobs, no exception, and the summary of these
    records. *)
Lemma burst_records (pf : platform) (self : Booker) (target_date : string)
    (envs : nat -> env) (booking_time : Q) :
  calculate_booking_time pf self = Ok booking_time ->
  let tasks := booking_tasks self booking_time target_date in
  exists report,
    execute_burst_strategy pf self target_date envs = Ok report
    /\ report_exceptions report = []
    /\ report_summary report = log_burst_summary (report_attempts report)
    /\ List.length (report_attempts report) = List.length tasks
    /\ (forall i j, nth_error tasks i = Some j ->
          let requests := posts (snd (run_unit self (envs i) j)) in
          (1 <= requests)%nat
          /\ fst (run_unit self (envs i) j)
             = Ok (final_record (envs i) j (requests - 1))
          /\ nth_error (report_attempts report) i
             = Some (final_record (envs i) j (requests - 1))).
Proof.
  intros Hbt tasks. unfold execute_burst_strategy. rewrite Hbt. cbn [rbind]. fold tasks.
  destruct (gather_records self envs tasks 0) as [attempts Hg].
  destruct (keep_records attempts) as [Hk1 Hk2].
  eexists. split; [reflexivity |].
  cbn [report_exceptions report_attempts report_summary].
  rewrite Hg, Hk1, Hk2. split; [reflexivity |]. split; [reflexivity |]. split.
  { rewrite <- (gather_length self envs tasks 0), Hg. now rewrite length_map. }
  intros i j Hij. cbv zeta.
  destruct (run_unit_final_record self (envs i) j) as [Hone Ha].
  split; [exact Hone |]. split; [exact Ha |].
  pose proof (gather_nth self envs tasks 0 i j Hij) as Hn.
  rewrite Hg, nth_error_map in Hn. simpl in Hn. rewrite Ha in Hn.
  destruct (nth_error attempts i); simpl in Hn; congruence.
Qed.

(** C2, amended. When the burst completes, every scheduled job has exactly
    one record, at the job's own position in the returned list, and no unit
    raises.  However many requests a unit made, its record is
    [final_record]: it is fixed by the first answer and the last request
    alone, the requests in between leaving nothing on it.  The success
    flag, the status code and the error detail are those of the last
    request, or those of the exhausted budget; the latency is the one
    measured on the first answer, and a request that raised leaves the
    status code as it was. *)
Theorem one_record_per_job (pf : platform) (self : Booker) (target_date : string)
    (envs : nat -> env) (booking_time : Q) :
  calculate_booking_time pf self = Ok booking_time ->
  let tasks := booking_tasks self booking_time target_date in
  exists report,
    execute_burst_strategy pf self target_date envs = Ok report
    /\ report_exceptions report = []
    /\ List.length (report_attempts report) = List.length tasks
    /\ (forall i j, nth_error tasks i = Some j ->
          let requests := posts (snd (run_unit self (envs i) j)) in
          (1 <= requests)%nat
          /\ nth_error (report_attempts report) i
             = Some (final_record (envs i) j (requests - 1))).
Proof.
  intros Hbt tasks.
  destruct (burst_records pf self target_date envs booking_time Hbt)
    as [report [Hrun [Hexn [_ [Hlen Hrec]]]]].
  exists report. split; [exact Hrun |]. split; [exact Hexn |]. split; [exact Hlen |].
  intros i j Hij. destruct (Hrec i j Hij) as [Hone [_ Hnth]]. split; assumption.
Qed.

(** C2 as stated fails: the record does not hold the final outcome only.
    A unit whose first two requests are rejected and whose third request is
    answered with status 200 records that success with the latency of the
    first, rejected answer, measured before any retry was sent; and a unit
    whose third request raises keeps, beside the text of the exception, the
    status code 400 of its first answer. *)
Lemma record_keeps_first_answer :
  let j := mkJob 0 (-10) "07-24-2025" "7:33" in
  (let e := opening_env in
   posts (snd (run_unit scenario_booker e j)) = 3%nat
   /\ request_result (network e 0) = Ok (false, 400, Some "Booking not open yet"%string)
   /\ request_result (network e 2) = Ok (true, 200, None)
   /\ (clock e 2 < clock e 3)%Q
   /\ exists a, fst (run_unit scenario_booker e j) = Ok a
                /\ success a = true
                /\ status_code a = Some 200
                /\ response_time_ms a = ((clock e 2 - clock e 1) * 1000)%Q
                /\ round_trip_latency_ms a = Some (response_time_ms a))
  /\ (let e := mkEnv (clock opening_env)
                 (fun n => match n with
                           | O | S O => Response 400 "Booking not open yet"
                           | _ => OtherError "connection reset"
                           end) in
      posts (snd (run_unit scenario_booker e j)) = 3%nat
      /\ request_result (network e 2) = Exn "connection reset"%string
      /\ exists a, fst (run_unit scenario_booker e j) = Ok a
                   /\ error_message a = Some "connection reset"%string
                   /\ status_code a = Some 400
                   /\ response_time_ms a = ((clock e 2 - clock e 1) * 1000)%Q).
Proof.
  cbv zeta. split.
  - split; [vm_compute; reflexivity |]. split; [reflexivity |]. split; [reflexivity |].
    split; [reflexivity |].
    eexists. split; [vm_compute; reflexivity |]. repeat split.
  - split; [vm_compute; reflexivity |]. split; [reflexivity |].
    eexists. split; [vm_compute; reflexivity |]. repeat split.
Qed.

(** ** Response classification *)

Lemma spec_classify_retryable (status : Z) (body : string) :
  spec_classify status body = RetryableRejection <->
  retryable (Response status body) = true.
Proof.
  unfold spec_classify, retryable, is_booking_not_open. simpl or_empty.
  rewrite (contains_lower_caseless "booking not open" body eq_refl).
  destruct (status =? 200) eqn:E200.
  - apply Z.eqb_eq in E200. subst status. simpl. split; discriminate.
  - destruct ((status =? 400) && caseless_in "booking not open" body);
      split; auto; discriminate.
Qed.

Lemma no_retry_log_first_answer (e : env) (j : job) :
  existsb is_retry_log (trace (first_answer e j)) = false.
Proof.
  rewrite trace_first_answer.
  destruct (Qltb 0 (fire_instant j - clock e 0)); reflexivity.
Qed.

(** A unit whose first answer is not a retryable rejection makes that
    one request and never enters the retry path. *)
Lemma run_unit_no_retry (self : Booker) (e : env) (j : job)
    (succ : bool) (st : Z) (err : option string) :
  request_result (network e 0) = Ok (succ, st, err) ->
  is_booking_not_open st err = false ->
  fst (run_unit self e j)
  = Ok (answered (clock e 1) (job_offset_ms j) ((clock e 2 - clock e 1) * 1000)%Q
          succ st err)
  /\ posts (snd (run_unit self e j)) = 1%nat
  /\ existsb is_retry_log (trace (snd (run_unit self e j))) = false.
Proof.
  intros Hreq Hopen. rewrite run_unit_eq. cbv zeta. rewrite Hreq, Hopen.
  pose proof (posts_first_answer e j) as Hp.
  pose proof (no_retry_log_first_answer e j) as Hn.
  remember (first_answer e j) as o2 eqn:Ho2. clear Ho2.
  cbn [fst snd]. split; [reflexivity |]. rewrite posts_logged. split.
  - simpl. exact Hp.
  - match goal with |- context [logged ?a ?o] =>
      destruct (trace_logged a o) as [rest [Hr Hrest]] end.
    rewrite Hr. simpl trace. rewrite existsb_app, Hn.
    simpl. exact Hrest.
Qed.



(** The search up to letter case on a few bodies. *)
Example caseless_examples :
  caseless_in "booking not open" "Booking Not OPEN yet" = true
  /\ caseless_in "booking not open" "Sorry, bOOKING NOT oPEN" = true
  /\ caseless_in "booking not open" "booking  not open" = false
  /\ caseless_in "booking not open" "no availability" = false
  /\ caseless_in "booking not open" "" = false
  /\ ascii_text "Booking not open yet" = true.
Proof. vm_compute. repeat split; reflexivity. Qed.

(** The three scenarios of the specification. *)
Example classification_scenarios :
  spec_classify 400 "Booking not open yet" = RetryableRejection
  /\ spec_classify 409 "no availability" = TerminalFailure
  /\ spec_classify 200 "" = Success.
Proof. repeat split; reflexivity. Qed.

(** ** Retry engine *)

(** C4. A job whose requests are all classified as retryable rejections
    ends its retry loop after [k] retries, where [k] is at most
    [max_retry_attempts] and the loop stopped at the first of the two
    bounds: either [k] is the maximum, or the clock read before retry
    [k + 1] had reached the cutoff, counted from the job's own first
    attempt; before each of the [k] retries the clock was below the cutoff.
    The record is a failure with status 400 whose error detail is the
    exhaustion message with the number of retries.  The unit reads the
    clock three times before the loop: [clock e 1] is the start of its
    attempt, and [clock e (3 + i)] is the reading at the head of iteration
    [i] of the loop. *)
Theorem retry_budget_exhaustion (self : Booker) (e : env) (j : job) :
  (forall n, exists status body,
      network e n = Response status body
      /\ spec_classify status body = RetryableRejection) ->
  exists k : nat,
    (k <= Z.to_nat (max_retry_attempts (config self)))%nat
    /\ fst (run_unit self e j)
       = Ok (answered (clock e 1) (job_offset_ms j) ((clock e 2 - clock e 1) * 1000)%Q
               false 400
               (Some ("Max retries (" ++ str_of_int (Z.of_nat k)
                      ++ ") reached or cutoff time exceeded")%string))
    /\ posts (snd (run_unit self e j)) = S k
    /\ (forall i, (i < k)%nat ->
          (clock e (3 + i) < clock e 1 + cutoff_seconds (config self))%Q)
    /\ (k = Z.to_nat (max_retry_attempts (config self))
        \/ (clock e 1 + cutoff_seconds (config self) <= clock e (3 + k))%Q).
Proof.
  intros Hall.
  assert (Hretry : forall n, retryable (network e n) = true).
  { intros n. destruct (Hall n) as [status [body [Hn Hc]]]. rewrite Hn.
    now apply spec_classify_retryable. }
  rewrite run_unit_eq. cbv zeta.
  destruct (retryable_is_400 _ (Hretry 0%nat)) as [text [_ [Hc Hreq]]].
  rewrite Hreq.
  replace (is_booking_not_open 400 (Some text)) with true
    by (unfold is_booking_not_open; simpl; now rewrite Hc).
  pose proof (posts_first_answer e j) as Hp. pose proof (ticks_first_answer e j) as Ht.
  remember (first_answer e j) as o2 eqn:Ho2. clear Ho2.
  unfold smart_retry.
  match goal with |- context [run e (retry_loop self ?d ?t ?c ?n ?rc ?s) ?o] =>
    pose proof (retry_loop_cases e self d t c n rc s o) as Hcases;
    remember (run e (retry_loop self d t c n rc s) o) as res eqn:Hres; clear Hres
  end.
  cbv zeta in Hcases. unfold loop_exhausted, loop_stopped in Hcases.
  simpl posts in Hcases. simpl ticks in Hcases. rewrite Hp, Ht in Hcases.
  destruct Hcases as [_ [[k [Hex [Hr Hposts]]] | [k [Hst [_ _]]]]].
  - destruct Hex as [Hle [Hclk [_ Hend]]]. exists k. rewrite Hr, Z.add_0_l.
    cbn [exhausted fst snd]. rewrite posts_logged, Hposts.
    repeat split; auto.
  - destruct Hst as [_ [_ [_ Hlast]]]. rewrite Hretry in Hlast. discriminate.
Qed.

(** ** Aggregator *)

Lemma fold_Qplus_acc (l : list Q) :
  forall acc, (fold_left Qplus l acc == acc + fold_left Qplus l 0)%Q.
Proof.
  induction l as [| x l IH]; intros acc; simpl.
  - ring.
  - rewrite (IH (acc + x)%Q), (IH (0 + x)%Q). ring.
Qed.

Lemma py_sum_cons (x : Q) (l : list Q) : (py_sum (x :: l) == x + py_sum l)%Q.
Proof.
  unfold py_sum. simpl. rewrite fold_Qplus_acc. ring.
Qed.

Lemma truthy_float_false (x : Q) : truthy_float x = false <-> (x == 0)%Q.
Proof.
  unfold truthy_float. rewrite negb_false_iff. apply Qeq_bool_iff.
Qed.

Lemma truthy_float_true (x : Q) : truthy_float x = true <-> ~ (x == 0)%Q.
Proof.
  unfold truthy_float. rewrite negb_true_iff. split.
  - intros H Hx. apply Qeq_bool_iff in Hx. congruence.
  - intros H. destruct (Qeq_bool x 0) eqn:E; auto.
    apply Qeq_bool_iff in E. contradiction.
Qed.

(** Leaving out the records of latency [0.0] does not change the sum. *)
Lemma py_sum_timed (attempts : list BookingAttempt) :
  (py_sum (map response_time_ms
             (filter (fun a => truthy_float (response_time_ms a)) attempts))
   == py_sum (map response_time_ms attempts))%Q.
Proof.
  induction attempts as [| a l IH]; simpl; [reflexivity |].
  destruct (truthy_float (response_time_ms a)) eqn:E; simpl.
  - rewrite !py_sum_cons, IH. reflexivity.
  - apply truthy_float_false in E. rewrite py_sum_cons, IH, E. ring.
Qed.

Lemma filter_partition_length {A : Type} (p : A -> bool) (l : list A) :
  (List.length (filter p l) + List.length (filter (fun a => negb (p a)) l)
   = List.length l)%nat.
Proof.
  induction l as [| a l IH]; simpl; auto.
  destruct (p a); simpl; lia.
Qed.

Lemma filter_all {A : Type} (p : A -> bool) (l : list A) :
  Forall (fun a => p a = true) l -> filter p l = l.
Proof.
  induction 1 as [| a l Ha _ IH]; simpl; auto.
  now rewrite Ha, IH.
Qed.

(** C5, amended. The summary reports the number of successes and the
    number of failures, which add up to the number of records.  The mean
    latency it reports is the sum over all records, successes and failures
    alike, divided by the number of records whose latency is not [0.0]; no
    mean is reported when every latency is [0.0].  It is the mean over all
    records when no record has latency [0.0]. *)
Theorem summary_counts_and_mean (attempts : list BookingAttempt) :
  let s := log_burst_summary attempts in
  let timed := filter (fun a => truthy_float (response_time_ms a)) attempts in
  n_successful s = List.length (filter success attempts)
  /\ n_failed s = List.length (filter (fun a => negb (success a)) attempts)
  /\ (n_successful s + n_failed s = List.length attempts)%nat
  /\ match avg_response s with
     | Some m =>
         timed <> []
         /\ (m == py_sum (map response_time_ms attempts)
                  / inject_Z (Z.of_nat (List.length timed)))%Q
     | None => timed = []
     end
  /\ (Forall (fun a => ~ (response_time_ms a == 0)%Q) attempts ->
      attempts <> [] ->
      exists m, avg_response s = Some m /\ (m == spec_mean attempts)%Q).
Proof.
  intros s timed.
  assert (Havg : match avg_response s with
                 | Some m =>
                     timed <> []
                     /\ (m == py_sum (map response_time_ms attempts)
                              / inject_Z (Z.of_nat (List.length timed)))%Q
                 | None => timed = []
                 end).
  { unfold s, log_burst_summary. cbn [avg_response]. fold timed.
    pose proof (py_sum_timed attempts) as Hsum. fold timed in Hsum.
    destruct timed as [| a l]; simpl map; cbv iota; [reflexivity |].
    split; [discriminate |].
    change (response_time_ms a :: map response_time_ms l)
      with (map response_time_ms (a :: l)).
    rewrite Hsum, length_map. reflexivity. }
  split; [reflexivity |]. split; [reflexivity |]. split.
  { apply filter_partition_length. }
  split; [exact Havg |].
  intros Hall Hne.
  assert (Htimed : timed = attempts).
  { apply filter_all. eapply Forall_impl; [| exact Hall].
    intros a Ha. now apply truthy_float_true. }
  rewrite Htimed in Havg. destruct (avg_response s) as [m |].
  - exists m. split; [reflexivity |]. apply Havg.
  - contradiction.
Qed.

(** C5 as stated fails: a unit whose request raised leaves a record of
    latency [0.0], and the reported mean leaves that record out.  Here the
    reported mean is 100 ms and the mean over both records is 50 ms. *)
Lemma mean_leaves_out_zero_latency :
  let attempts :=
    [ mkBookingAttempt 0 (-10) 0 None false (Some "timeout"%string) None;
      mkBookingAttempt 0 10 100 (Some 200) true None (Some 100%Q) ] in
  attempts <> []
  /\ exists m, avg_response (log_burst_summary attempts) = Some m
               /\ ~ (m == spec_mean attempts)%Q.
Proof.
  cbv zeta. split; [discriminate |]. eexists. split; [reflexivity |].
  vm_compute. discriminate.
Qed.

Lemma py_min_by_first_minimal {A : Type} (key : A -> Q) (rest : list A) :
  forall (best : A) (pre post : list A),
    Forall (fun a => (key best < key a)%Q) pre ->
    Forall (fun a => (key best <= key a)%Q) post ->
    let m := py_min_by key best rest in
    exists before after,
      pre ++ best :: post ++ rest = before ++ m :: after
      /\ Forall (fun a => (key m < key a)%Q) before
      /\ Forall (fun a => (key m <= key a)%Q) after.
Proof.
  unfold py_min_by.
  induction rest as [| a r IH]; intros best pre post Hpre Hpost; simpl.
  - exists pre, post. rewrite app_nil_r. auto.
  - destruct (Qltb (key a) (key best)) eqn:E.
    + apply Qltb_true in E.
      assert (Hpre' : Forall (fun x => (key a < key x)%Q) (pre ++ best :: post)).
      { apply Forall_app. split.
        - eapply Forall_impl; [| exact Hpre]. intros x Hx. simpl in Hx. lra.
        - constructor; [exact E |].
          eapply Forall_impl; [| exact Hpost]. intros x Hx. simpl in Hx. lra. }
      destruct (IH a (pre ++ best :: post) [] Hpre' (Forall_nil _))
        as [before [after [Heq [Hb Ha]]]].
      * exists before, after. split; [| auto].
        rewrite <- Heq. simpl. rewrite <- app_assoc. reflexivity.
    + apply Qltb_false in E.
      assert (Hpost' : Forall (fun x => (key best <= key x)%Q) (post ++ [a])).
      { apply Forall_app. split; [exact Hpost |]. constructor; [exact E | constructor]. }
      destruct (IH best pre (post ++ [a]) Hpre Hpost')
        as [before [after [Heq [Hb Ha]]]].
      * exists before, after. split; [| auto].
        rewrite <- Heq. rewrite <- app_assoc. reflexivity.
Qed.

(** C6, amended. When a record succeeded, the record reported as fastest
    is a successful record of minimum latency, and among the successful
    records of that latency it is the first in the order of the collection:
    every successful record before it is strictly slower, every one after
    it is at least as slow.  Without a success, none is reported. *)
Theorem fastest_is_first_minimal (attempts : list BookingAttempt) :
  match fastest (log_burst_summary attempts) with
  | Some f =>
      In f attempts /\ success f = true
      /\ exists before after,
           filter success attempts = before ++ f :: after
           /\ Forall (fun a => (response_time_ms f < response_time_ms a)%Q) before
           /\ Forall (fun a => (response_time_ms f <= response_time_ms a)%Q) after
  | None => filter success attempts = []
  end.
Proof.
  unfold log_burst_summary. cbn [fastest].
  destruct (filter success attempts) as [| first rest] eqn:Ef; [reflexivity |].
  pose proof (py_min_by_first_minimal response_time_ms rest first [] []
                (Forall_nil _) (Forall_nil _)) as Hmin.
  cbv zeta in Hmin. destruct Hmin as [before [after [Heq [Hb Ha]]]].
  simpl in Heq.
  assert (Hin : In (py_min_by response_time_ms first rest) (filter success attempts)).
  { rewrite Ef, Heq. apply in_or_app. right. now left. }
  apply filter_In in Hin as [Hin Hs].
  split; [exact Hin |]. split; [exact Hs |].
  exists before, after. auto.
Qed.

(** C6 as stated fails: of two successes with the same latency, the one
    listed first is reported, though the other fired earlier. *)
Lemma fastest_tie_keeps_listed_order :
  let a1 := mkBookingAttempt 10 70 80 (Some 200) true None (Some 80%Q) in
  let a2 := mkBookingAttempt 5 (-70) 80 (Some 200) true None (Some 80%Q) in
  fastest (log_burst_summary [a1; a2]) = Some a1
  /\ ~ spec_fastest [a1; a2] a1
  /\ spec_fastest [a1; a2] a2.
Proof.
  cbv zeta. split; [reflexivity |]. split.
  - intros [_ [_ H]].
    specialize (H (mkBookingAttempt 5 (-70) 80 (Some 200) true None (Some 80%Q))).
    destruct H as [H | [_ H]]; [right; now left | reflexivity | |];
      simpl in H; vm_compute in H; [discriminate | apply H; reflexivity].
  - split; [right; now left |]. split; [reflexivity |].
    intros a [<- | [<- | []]] _; right; split; simpl; try reflexivity;
      vm_compute; discriminate.
Qed.

(** ** Configuration *)

Lemma obind_returned {A B : Type} (m : outcome A) (f : A -> outcome B) (b : B) :
  obind m f = Returned b -> exists a, m = Returned a /\ f a = Returned b.
Proof.
  destruct m as [a | e |]; simpl; try discriminate. intros H. now exists a.
Qed.

Lemma of_result_returned {A : Type} (r : result A) (a : A) :
  of_result r = Returned a -> r = Ok a.
Proof.
  destruct r; simpl; congruence.
Qed.

Lemma typed_returned {A : Type} (x : option A) (a : A) :
  typed x = Returned a -> x = Some a.
Proof.
  destruct x; simpl; congruence.
Qed.


Ltac invert_chain H :=
  repeat (apply obind_returned in H;
          let a := fresh "v" in
          let Ha := fresh "Hv" in
          destruct H as [a [Ha H]]);
  repeat match goal with
    | Hr : of_result _ = Returned _ |- _ => apply of_result_returned in Hr
    | Ht : typed _ = Returned _ |- _ => apply typed_returned in Ht
    end.




(** ** Failure propagation *)


Lemma loop_step_head {A : Type} (c c' : coro A) (pool : list (coro A)) :
  resume c c' -> loop_step (c :: pool) (c' :: pool).
Proof.
  intros H. exact (loop_step_at [] pool c c' H).
Qed.

Lemma loop_step_tail {A : Type} (c : coro A) (pool pool' : list (coro A)) :
  loop_step pool pool' -> loop_step (c :: pool) (c :: pool').
Proof.
  intros H. destruct H as [before after c0 c0' Hres].
  exact (loop_step_at (c :: before) after c0 c0' Hres).
Qed.

Lemma reachable_head {A : Type} (c c' : coro A) (pool : list (coro A)) :
  clos_refl_trans (coro A) resume c c' -> reachable (c :: pool) (c' :: pool).
Proof.
  unfold reachable. induction 1 as [x y H | x | x y z _ IH1 _ IH2].
  - apply rt_step. now apply loop_step_head.
  - apply rt_refl.
  - eapply rt_trans; eauto.
Qed.

Lemma reachable_tail {A : Type} (c : coro A) (pool pool' : list (coro A)) :
  reachable pool pool' -> reachable (c :: pool) (c :: pool').
Proof.
  unfold reachable. induction 1 as [x y H | x | x y z _ IH1 _ IH2].
  - apply rt_step. now apply loop_step_tail.
  - apply rt_refl.
  - eapply rt_trans; eauto.
Qed.








(** So does a number of days that leaves the range of dates: the error is
    raised before the session is initialized. *)
Example target_date_error_is_fatal :
  let src :=
    Loaded (JDict [("booking_settings",
                    JDict [("days_in_advance", JInt 10000000)])]%string) in
  run_burst_booking sample_platform "config.json" src (Exn "no browser")
    (fun _ => sample_env)
  = Raised "date value out of range".
Proof.
  reflexivity.
Qed.

(** ** Records of failed requests *)

(** A unit that made more than one request retried after a retryable first
    answer; its record keeps the latency measured on the first answer and
    takes its outcome from the last request. *)
Lemma run_unit_retried (self : Booker) (e : env) (j : job) (n : nat) :
  posts (snd (run_unit self e j)) = S (S n) ->
  let rt := ((clock e 2 - clock e 1) * 1000)%Q in
  retryable (network e 0) = true
  /\ fst (run_unit self e j)
     = Ok (match request_result (network e (S n)) with
           | Ok (s, st, err) =>
               if retryable (network e (S n))
               then answered (clock e 1) (job_offset_ms j) rt false 400
                      (snd (exhausted (Z.of_nat (S n))))
               else answered (clock e 1) (job_offset_ms j) rt s st err
           | Exn msg =>
               answered (clock e 1) (job_offset_ms j) rt false 400 (Some msg)
           end).
Proof.
  rewrite run_unit_eq. cbv zeta.
  pose proof (posts_first_answer e j) as Hp.
  remember (first_answer e j) as o2 eqn:Ho2. clear Ho2.
  destruct (request_result (network e 0)) as [[[succ st] err] | msg] eqn:E0.
  2:{ simpl. rewrite Hp. discriminate. }
  pose proof (retryable_first _ _ _ _ E0) as Hfirst.
  destruct (is_booking_not_open st err) eqn:Eopen.
  2:{ cbn [snd]. rewrite posts_logged. simpl. rewrite Hp. discriminate. }
  apply retryable_is_400 in Hfirst as Hfirst'. destruct Hfirst' as [text [_ [_ Hreq0]]].
  rewrite E0 in Hreq0. inversion Hreq0; subst succ st err; clear Hreq0.
  unfold smart_retry.
  match goal with |- context [run e (retry_loop self ?d ?t ?c ?m ?rc ?s) ?o] =>
    pose proof (retry_loop_cases e self d t c m rc s o) as Hcases;
    remember (run e (retry_loop self d t c m rc s) o) as res eqn:Hres; clear Hres
  end.
  cbv zeta in Hcases. unfold loop_exhausted, loop_stopped in Hcases.
  simpl posts in Hcases. rewrite Hp in Hcases.
  destruct Hcases as [_ [[k [Hex [Hr Hposts]]] | [k [Hst [Hr Hposts]]]]].
  - rewrite Hr. cbn [exhausted fst snd]. rewrite posts_logged, Hposts.
    intros Hk. assert (k = S n) by lia. subst k. split; [exact Hfirst |].
    destruct Hex as [_ [_ [Hnet _]]].
    assert (Hlast : retryable (network e (S n)) = true) by (apply (Hnet n); lia).
    destruct (retryable_is_400 _ Hlast) as [text' [_ [_ Hreq]]].
    rewrite Hreq, Hlast, Z.add_0_l. reflexivity.
  - destruct Hst as [_ [_ [_ Hlast]]].
    destruct (fst (fst res)) as [[[s' st'] err'] | msg] eqn:Eres; cbn [snd].
    + rewrite posts_logged, Hposts. intros Hk. assert (k = n) by lia. subst k.
      split; [exact Hfirst |]. simpl in Hr, Hlast. rewrite <- Hr, Hlast. reflexivity.
    + simpl posts. rewrite Hposts. intros Hk. assert (k = n) by lia. subst k.
      split; [exact Hfirst |]. simpl in Hr. rewrite <- Hr. reflexivity.
Qed.

(** C10, amended. When the unit's first request raises an exception that
    escapes the request helper, the unit returns a record with success
    [False], no status code, latency exactly [0.0] and the exception text;
    a client error caught by the helper gives status code 0 with the error
    text and success [False], on the first request and on a retry alike.
    When a retry raises an exception that escapes the helper, the record has
    success [False] and the exception text, and keeps the status code 400
    and the latency of the first answer. *)
Theorem exception_record (self : Booker) (e : env) (j : job) (msg : string) :
  let r := run_unit self e j in
  let rt := ((clock e 2 - clock e 1) * 1000)%Q in
  (network e 0 = OtherError msg ->
   fst r = Ok (mkBookingAttempt (clock e 1) (job_offset_ms j) 0 None false (Some msg) None))
  /\ (network e 0 = ClientError msg ->
      fst r = Ok (answered (clock e 1) (job_offset_ms j) rt false 0 (Some msg)))
  /\ (forall n, posts (snd r) = S (S n) ->
        (network e (S n) = OtherError msg ->
         fst r = Ok (answered (clock e 1) (job_offset_ms j) rt false 400 (Some msg)))
        /\ (network e (S n) = ClientError msg ->
            fst r = Ok (answered (clock e 1) (job_offset_ms j) rt false 0 (Some msg)))).
Proof.
  intros r rt. split; [| split].
  - intros Hn. unfold r. rewrite run_unit_eq. cbv zeta. rewrite Hn. reflexivity.
  - intros Hn.
    apply (run_unit_no_retry self e j false 0 (Some msg)); [now rewrite Hn | reflexivity].
  - intros n Hposts.
    destruct (run_unit_retried self e j n Hposts) as [_ Hrec]. fold rt in Hrec.
    split; intros Hn; unfold r; rewrite Hrec, Hn; reflexivity.
Qed.

(** C10 as stated fails when the request that raises is a retry: the
    record then has status code 400, not [None], and the latency of the
    first answer, not [0.0]. *)
Lemma retry_exception_keeps_first_answer :
  let self := Booker_init BurstConfig_default default_credentials None in
  let e := mkEnv (fun n => (inject_Z (Z.of_nat n) * (1 # 100))%Q)
             (fun n => match n with
                       | O => Response 400 "Booking not open yet"
                       | _ => OtherError "timeout"
                       end) in
  let j := mkJob 0 (-70) "07-24-2025" "7:33" in
  request_result (network e 1) = Exn "timeout"%string
  /\ exists a, fst (run_unit self e j) = Ok a
               /\ success a = false
               /\ error_message a = Some "timeout"%string
               /\ status_code a = Some 400
               /\ ~ (response_time_ms a == 0)%Q.
Proof.
  cbv zeta. split; [reflexivity |]. eexists. split; [vm_compute; reflexivity |].
  repeat split. vm_compute. discriminate.
Qed.

(** ** Admission control *)

(** Every unit can be resumed up to its first request. *)
Lemma unit_reaches_network_phase (self : Booker) (j : job) :
  exists c, clos_refl_trans _ resume (unit_of self j) c /\ in_network_phase c = true.
Proof.
  unfold unit_of, schedule_booking_attempt.
  set (w := (execution_time (job_base_time j) (job_offset_ms j) - 0)%Q).
  eexists. split.
  - eapply rt_trans; [apply rt_step; apply (resume_clock _ 0%Q) |].
    cbv beta. fold w. destruct (Qltb 0 w).
    + eapply rt_trans; [apply rt_step; cbn; apply resume_sleep |].
      eapply rt_trans; [apply rt_step; cbn; apply (resume_clock _ 0%Q) |].
      cbn. apply rt_refl.
    + eapply rt_trans; [apply rt_step; cbn; apply (resume_clock _ 0%Q) |].
      cbn. apply rt_refl.
  - reflexivity.
Qed.

(** Nothing admits the units to their network phase one after another:
    whatever the configuration, the event loop can bring all the units of a
    burst to await their requests at the same time. *)
Lemma all_units_in_flight (self : Booker) (tasks : list job) :
  exists pool,
    reachable (map (unit_of self) tasks) pool
    /\ in_flight pool = List.length tasks.
Proof.
  induction tasks as [| j rest [pool [Hreach Hcount]]]; simpl.
  - exists []. split; [apply rt_refl | reflexivity].
  - destruct (unit_reaches_network_phase self j) as [c [Hc Hphase]].
    exists (c :: pool). split.
    + eapply rt_trans; [apply reachable_head; exact Hc |].
      apply reachable_tail. exact Hreach.
    + unfold in_flight in *. simpl. rewrite Hphase. simpl. now rewrite Hcount.
Qed.

Lemma retry_loop_same {St : Type} (e : env) (self1 self2 : Booker) (d t : string)
    (cutoff_time : Q) (remaining : nat) :
  retry_interval_ms (config self1) = retry_interval_ms (config self2) ->
  forall (retry_count : Z) (s : St) (o : cursor),
    run e (retry_loop self1 d t cutoff_time remaining retry_count s) o
    = run e (retry_loop self2 d t cutoff_time remaining retry_count s) o.
Proof.
  intros Hint. induction remaining as [| r IH]; intros retry_count s o; [reflexivity |].
  cbn [retry_loop]. rewrite !run_time_bind.
  destruct (Qltb (clock e (ticks o)) cutoff_time); [| reflexivity].
  rewrite !run_sleep_bind, !run_bind, !run_make_booking_request, Hint.
  destruct (request_result _) as [[[succ st] err] | msg]; [| reflexivity].
  destruct (succ || negb (st =? 400)); [reflexivity |].
  destruct (negb _); [reflexivity | apply IH].
Qed.

Lemma run_unit_same (self1 self2 : Booker) (e : env) (j : job) :
  same_but_cap self1 self2 -> run_unit self1 e j = run_unit self2 e j.
Proof.
  intros [_ [Hint [Hmax [_ [Hcut _]]]]]. rewrite !run_unit_eq. cbv zeta.
  unfold smart_retry. rewrite Hmax, Hcut.
  destruct (request_result (network e 0)) as [[[succ st] err] | msg]; [| reflexivity].
  destruct (is_booking_not_open st err); [| reflexivity].
  now rewrite (retry_loop_same e self1 self2 _ _ _ _ Hint).
Qed.

(** The burst does not read [max_concurrent_requests]. *)
Lemma burst_ignores_concurrency_cap (pf : platform) (self1 self2 : Booker)
    (target_date : string) (envs : nat -> env) :
  same_but_cap self1 self2 ->
  execute_burst_strategy pf self1 target_date envs
  = execute_burst_strategy pf self2 target_date envs.
Proof.
  intros Hsame. pose proof Hsame as [Hoff [_ [_ [Hwin [_ Htargets]]]]].
  unfold execute_burst_strategy, calculate_booking_time. rewrite Hwin.
  destruct (_ <~ list_index _ 0;; _) as [booking_time | msg]; [| reflexivity].
  cbn [rbind]. unfold booking_tasks. rewrite Hoff, Htargets.
  set (tasks := fold_left _ _ _).
  assert (Hg : forall i, gather self1 envs i tasks = gather self2 envs i tasks).
  { induction tasks as [| j rest IH]; intros i; simpl; [reflexivity |].
    now rewrite IH, (run_unit_same self1 self2 _ _ Hsame). }
  now rewrite Hg.
Qed.

(** C8, on the code. With [max_concurrent_requests = 1] and the default six
    offsets and two targets, the event loop reaches a state in which all
    twelve units await the answer to a request at the same time. *)
Theorem concurrency_cap_not_enforced :
  exists pool,
    reachable
      (map (unit_of capped_booker) (booking_tasks capped_booker 0 "07-24-2025")) pool
    /\ in_flight pool = 12%nat
    /\ max_concurrent_requests (config capped_booker) = 1.
Proof.
  destruct (all_units_in_flight capped_booker
              (booking_tasks capped_booker 0 "07-24-2025")) as [pool [Hreach Hcount]].
  exists pool. split; [exact Hreach |]. split; [| reflexivity].
  rewrite Hcount. reflexivity.
Qed.

(** ** Concrete runs *)

Lemma one_record_per_job_witness :
  exists report,
    execute_burst_strategy sample_platform scenario_booker "07-24-2025"
      (fun _ => rejecting_env) = Ok report
    /\ report_scheduled report = 2%nat
    /\ List.length (report_attempts report) = 2%nat
    /\ report_exceptions report = [].
Proof.
  assert (Hbt : calculate_booking_time sample_platform scenario_booker
                = Ok (local_timestamp sample_platform 23 0 0)) by reflexivity.
  destruct (one_record_per_job sample_platform scenario_booker "07-24-2025"
              (fun _ => rejecting_env) _ Hbt) as [report [Hrun [Hexn [Hlen _]]]].
  exists report. split; [exact Hrun |].
  split; [| split; [rewrite Hlen; reflexivity | exact Hexn]].
  unfold execute_burst_strategy in Hrun. rewrite Hbt in Hrun. cbn [rbind] in Hrun.
  inversion Hrun. reflexivity.
Defined.


Lemma retry_budget_exhaustion_witness :
  exists k : nat,
    (k <= 3)%nat
    /\ posts (snd (run_unit scenario_booker rejecting_env
                     (mkJob 0 (-10) "07-24-2025" "7:33"))) = S k.
Proof.
  assert (Hall : forall n, exists status body,
             network rejecting_env n = Response status body
             /\ spec_classify status body = RetryableRejection).
  { intros n. exists 400, "Booking not open yet"%string. split; reflexivity. }
  destruct (retry_budget_exhaustion scenario_booker rejecting_env
              (mkJob 0 (-10) "07-24-2025" "7:33") Hall) as [k [Hle [_ [Hposts _]]]].
  exists k. split; [exact Hle | exact Hposts].
Defined.


(** The helpers on strings behave as Python's on these inputs. *)
Example py_str_examples :
  py_int "23" = Some 23 /\ py_int " 07 " = Some 7 /\ py_int "1_0" = Some 10
  /\ py_int "" = None /\ py_int "ab" = None /\ py_int "1__0" = None
  /\ py_int "-5" = Some (-5) /\ str_of_int 12 = "12"%string
  /\ split_on ":" "23:00:00" = ["23"; "00"; "00"]%string
  /\ split_on ":" "" = [""%string]
  /\ contains "booking not open" (lower "Booking Not OPEN yet") = true
  /\ contains "booking not open" (lower "no availability") = false.
Proof. vm_compute. repeat split; reflexivity. Qed.

(** The target date on the sample platform, and the three ways in which a
    number of days makes [timedelta] or the addition raise. *)
Example target_date_examples :
  format_target_date sample_platform 2 = Ok "07-24-2025"%string
  /\ format_target_date sample_platform 0 = Ok "07-22-2025"%string
  /\ format_target_date sample_platform 10000000 = Exn "date value out of range"
  /\ format_target_date sample_platform (-10000000) = Exn "date value out of range"
  /\ format_target_date sample_platform 1000000000
     = Exn "days=1000000000; must have magnitude <= 999999999"
  /\ format_target_date sample_platform 2147483648
     = Exn "Python int too large to convert to C int".
Proof. vm_compute. repeat split; reflexivity. Qed.

(** The default configuration schedules six offsets for two tee times; an
    empty list of tee times is replaced by the default one. *)
Example default_burst_jobs :
  map (fun j => (job_offset_ms j, job_tee_time j))
    (booking_tasks (Booker_init BurstConfig_default default_credentials (Some [])) 0
       "07-24-2025")
  = [(-70, "7:33"); (-70, "7:42"); (-40, "7:33"); (-40, "7:42");
     (-10, "7:33"); (-10, "7:42"); (10, "7:33"); (10, "7:42");
     (40, "7:33"); (40, "7:42"); (70, "7:33"); (70, "7:42")]%string.
Proof. reflexivity. Qed.

(** The retry scenario of the specification, with a clock that advances by
    10 ms at every reading: the maximum of 3 retries is hit first. *)
Example retry_scenario_max_first :
  let r := run_unit scenario_booker rejecting_env (mkJob 0 (-10) "07-24-2025" "7:33") in
  option_map error_message
    (match fst r with Ok a => Some a | Exn _ => None end)
  = Some (Some "Max retries (3) reached or cutoff time exceeded"%string)
  /\ posts (snd r) = 4%nat.
Proof. vm_compute. split; reflexivity. Qed.

(** The same scenario with a clock that advances by 15 ms at every reading:
    the cutoff of 0.05 s is hit first, after 2 retries. *)
Example retry_scenario_cutoff_first :
  let e := mkEnv (fun n => (inject_Z (Z.of_nat n) * (15 # 1000))%Q)
             (fun _ => Response 400 "Booking not open yet") in
  let r := run_unit scenario_booker e (mkJob 0 (-10) "07-24-2025" "7:33") in
  option_map error_message
    (match fst r with Ok a => Some a | Exn _ => None end)
  = Some (Some "Max retries (2) reached or cutoff time exceeded"%string)
  /\ posts (snd r) = 3%nat.
Proof. vm_compute. split; reflexivity. Qed.

(** The aggregator scenario of the specification: two successes of 120 ms
    and 80 ms and four failures, here of 50 ms each. *)
Example aggregator_scenario :
  let ok rt := mkBookingAttempt 0 0 rt (Some 200) true None (Some rt) in
  let ko := mkBookingAttempt 0 0 50 (Some 409) false (Some "no availability"%string)
              (Some 50%Q) in
  let s := log_burst_summary [ko; ok 120%Q; ko; ok 80%Q; ko; ko] in
  n_successful s = 2%nat /\ n_failed s = 4%nat
  /\ option_map response_time_ms (fastest s) = Some 80%Q
  /\ exists m, avg_response s = Some m /\ (m == 400 / 6)%Q.
Proof.
  cbv zeta. repeat split. eexists. split; [reflexivity |]. vm_compute. reflexivity.
Qed.

(** * Further properties of the code *)

(** ** Strings *)

Lemma without_app (c : ascii) (a b : string) :
  without c (a ++ b) = without c a && without c b.
Proof.
  induction a as [| x a IH]; simpl; auto. rewrite IH. now rewrite andb_assoc.
Qed.

Lemma split_on_single (sep : ascii) (a : string) :
  without sep a = true -> split_on sep a = [a].
Proof.
  induction a as [| c a IH]; simpl; auto.
  intros H. apply andb_true_iff in H as [Hc Ha]. apply negb_true_iff in Hc.
  now rewrite Hc, (IH Ha).
Qed.

Lemma split_on_field (sep : ascii) (a rest : string) :
  without sep a = true ->
  split_on sep (a ++ String sep rest) = a :: split_on sep rest.
Proof.
  induction a as [| c a IH]; simpl.
  - intros _. now rewrite Ascii.eqb_refl.
  - intros H. apply andb_true_iff in H as [Hc Ha]. apply negb_true_iff in Hc.
    now rewrite Hc, (IH Ha).
Qed.

Lemma split_on_fields (sep : ascii) (s : string) :
  Forall (fun p => without sep p = true) (split_on sep s).
Proof.
  induction s as [| c s IH]; simpl.
  - repeat constructor.
  - destruct (Ascii.eqb c sep) eqn:E.
    + constructor; [reflexivity | exact IH].
    + destruct (split_on sep s) as [| h t].
      * repeat constructor. simpl. now rewrite E.
      * inversion IH; subst. constructor; [| assumption]. simpl. now rewrite E.
Qed.

Lemma without_concat (c : ascii) (l : list string) :
  Forall (fun p => without c p = true) l -> without c (String.concat "" l) = true.
Proof.
  induction 1 as [| x l Hx Hl IH]; [reflexivity |].
  destruct l as [| y l']; [exact Hx |].
  change (String.concat "" (x :: y :: l'))
    with (x ++ String.concat "" (y :: l'))%string.
  now rewrite without_app, Hx, IH.
Qed.

Lemma str_app_assoc (a b c : string) : ((a ++ b) ++ c = a ++ b ++ c)%string.
Proof.
  induction a as [| x a IH]; simpl; auto. now rewrite IH.
Qed.

Lemma Forall_first {A : Type} (P : A -> Prop) (n : nat) (l : list A) :
  Forall P l -> Forall P (firstn n l).
Proof.
  intros H. revert n. induction H as [| x l Hx Hl IH]; intros [| n]; simpl;
    constructor; auto.
Qed.

(** X13. The retry test of a unit, which lower-cases the body and looks
    for the marker in the result, is a search for the marker in the body as
    it is, up to letter case, together with the test of the status; a
    missing body never passes it.  The body is ASCII text, on which
    [str.lower] changes the letters [A]-[Z] only. *)
Theorem retry_test_is_substring_test (status : Z) (error_msg : option string) :
  ascii_text (or_empty error_msg) = true ->
  is_booking_not_open status error_msg
  = (status =? 400) && caseless_in "booking not open" (or_empty error_msg)
  /\ is_booking_not_open status None = false.
Proof.
  intros _. unfold is_booking_not_open. split.
  - now rewrite (contains_lower_caseless "booking not open" _ eq_refl).
  - apply andb_false_r.
Qed.

Lemma retry_test_is_substring_test_witness :
  is_booking_not_open 400 (Some "Sorry: BOOKING NOT OPEN before 23:00"%string) = true.
Proof.
  exact (proj1 (retry_test_is_substring_test 400
                  (Some "Sorry: BOOKING NOT OPEN before 23:00"%string) eq_refl)).
Defined.

(** ** The endpoint of the requests *)

(** X2. The endpoint computed from the current URL keeps no ['/'] of the
    URL: for the URL [scheme//host/path] it is [scheme] followed at once by
    [host] and the endpoint path, the two slashes after the scheme being
    lost with the rest; whatever the URL, the text before the endpoint path
    holds no ['/']. *)
Theorem booking_api_url_loses_slashes (scheme host path : string) :
  without "/" scheme = true ->
  without "/" host = true ->
  extract_booking_api_url (scheme ++ "//" ++ host ++ "/" ++ path)
  = (scheme ++ host ++ "/api/booking/book")%string
  /\ extract_booking_api_url (scheme ++ "//" ++ host)
     = (scheme ++ host ++ "/api/booking/book")%string
  /\ (forall url, exists base,
        extract_booking_api_url url = (base ++ "/api/booking/book")%string
        /\ without "/" base = true).
Proof.
  intros Hs Hh. unfold extract_booking_api_url. cbv zeta. split; [| split].
  - change (scheme ++ "//" ++ host ++ "/" ++ path)%string
      with (scheme ++ String "/" (EmptyString ++ String "/" (host ++ String "/" path)))%string.
    rewrite (split_on_field _ _ _ Hs), (split_on_field "/" EmptyString _ eq_refl),
      (split_on_field _ _ _ Hh).
    simpl. now rewrite str_app_assoc.
  - change (scheme ++ "//" ++ host)%string
      with (scheme ++ String "/" (EmptyString ++ String "/" host))%string.
    rewrite (split_on_field _ _ _ Hs), (split_on_field "/" EmptyString _ eq_refl),
      (split_on_single _ _ Hh).
    simpl. now rewrite str_app_assoc.
  - intros url. eexists. split; [reflexivity |].
    apply without_concat. apply Forall_first. apply split_on_fields.
Qed.

Lemma booking_api_url_loses_slashes_witness :
  extract_booking_api_url "https://golf.com/members/home"
  = "https:golf.com/api/booking/book"%string.
Proof.
  exact (proj1 (booking_api_url_loses_slashes "https:" "golf.com" "members/home"
                  eq_refl eq_refl)).
Defined.

(** ** The window-open instant *)

Lemma two_digits_parse (n : Z) :
  0 <= n < 100 -> py_int (two_digits n) = Some n /\ without ":" (two_digits n) = true.
Proof.
  intros Hn.
  assert (Hall : forallb
                   (fun k => let n := Z.of_nat k in
                             match py_int (two_digits n) with
                             | Some m => m =? n
                             | None => false
                             end && without ":" (two_digits n))
                   (seq 0 100) = true) by (vm_compute; reflexivity).
  rewrite forallb_forall in Hall.
  assert (Hin : In (Z.to_nat n) (seq 0 100)) by (apply in_seq; lia).
  specialize (Hall (Z.to_nat n) Hin).
  cbv zeta in Hall. rewrite Z2Nat.id in Hall by lia.
  apply andb_true_iff in Hall as [H1 H2].
  destruct (py_int (two_digits n)) as [m |]; [| discriminate].
  apply Z.eqb_eq in H1. subst m. auto.
Qed.

(** X1. Every time of day written [HH:MM:SS] with an hour below 24 and
    minutes and seconds below 60 is accepted as the window time: the
    window-open instant is today at that hour, minute and second. *)
Theorem window_time_round_trip (pf : platform) (self : Booker) (h m s : Z) :
  0 <= h < 24 -> 0 <= m < 60 -> 0 <= s < 60 ->
  booking_window_time (config self) = hh_mm_ss h m s ->
  calculate_booking_time pf self = Ok (local_timestamp pf h m s).
Proof.
  intros Hh Hm Hs Hw.
  destruct (two_digits_parse h) as [Ph Wh]; [lia |].
  destruct (two_digits_parse m) as [Pm Wm]; [lia |].
  destruct (two_digits_parse s) as [Ps Ws]; [lia |].
  unfold calculate_booking_time. rewrite Hw. unfold hh_mm_ss.
  change (two_digits h ++ ":" ++ two_digits m ++ ":" ++ two_digits s)%string
    with (two_digits h ++ String ":" (two_digits m ++ String ":" (two_digits s)))%string.
  rewrite (split_on_field _ _ _ Wh), (split_on_field _ _ _ Wm), (split_on_single _ _ Ws).
  cbv zeta. cbn [list_index nth_error rbind]. unfold int_of_str.
  rewrite Ph, Pm, Ps. cbn [rbind]. unfold replace_timestamp.
  replace ((0 <=? h) && (h <=? 23)) with true by (symmetry; apply andb_true_iff; lia).
  replace ((0 <=? m) && (m <=? 59)) with true by (symmetry; apply andb_true_iff; lia).
  replace ((0 <=? s) && (s <=? 59)) with true by (symmetry; apply andb_true_iff; lia).
  reflexivity.
Qed.

Lemma window_time_round_trip_witness :
  calculate_booking_time sample_platform
    (Booker_init (BurstConfig_init None 35 50 10 "06:30:05" 30) default_credentials None)
  = Ok (local_timestamp sample_platform 6 30 5).
Proof.
  apply (window_time_round_trip sample_platform _ 6 30 5); [lia | lia | lia | reflexivity].
Defined.

(** ** The cookies of the requests *)

Lemma dict_get_set (k k' v : string) (d : list (string * string)) :
  dict_get k (dict_set k' v d) = if String.eqb k' k then Some v else dict_get k d.
Proof.
  induction d as [| [k0 v0] d IH]; simpl.
  - reflexivity.
  - destruct (String.eqb k0 k') eqn:E0; simpl.
    + apply String.eqb_eq in E0. subst k0.
      destruct (String.eqb k' k); reflexivity.
    + rewrite IH. destruct (String.eqb k0 k) eqn:E1; [| reflexivity].
      apply String.eqb_eq in E1. subst k. now rewrite String.eqb_sym, E0.
Qed.

Lemma dict_set_keys (k v : string) (d : list (string * string)) :
  NoDup (map fst d) -> NoDup (map fst (dict_set k v d))
  /\ forall x, In x (map fst (dict_set k v d)) <-> x = k \/ In x (map fst d).
Proof.
  induction d as [| [k0 v0] d IH]; simpl; intros Hnd.
  - split; [repeat constructor; auto | intros x; intuition].
  - inversion Hnd as [| ? ? Hnin Hnd']; subst.
    destruct (IH Hnd') as [IH1 IH2].
    destruct (String.eqb k0 k) eqn:E; simpl.
    + apply String.eqb_eq in E. subst k0. split; [exact Hnd | intros x; intuition].
    + apply String.eqb_neq in E. split.
      * constructor; [| exact IH1]. rewrite IH2. intros [H | H]; auto.
      * intros x. rewrite IH2. intuition.
Qed.

Lemma cookie_dict_fold (cookies : list cookie) :
  forall d,
    cookie_dict (Some cookies) = fold_left
      (fun d c => dict_set (cookie_name c) (cookie_value c) d) cookies []
    /\ (NoDup (map fst d) ->
        NoDup (map fst (fold_left
          (fun d c => dict_set (cookie_name c) (cookie_value c) d) cookies d))).
Proof.
  split; [destruct cookies; reflexivity |].
  revert d. induction cookies as [| c cookies IH]; simpl; intros d Hnd; auto.
  apply IH. now apply dict_set_keys.
Qed.

(** X3. In the cookies sent with a request, each name appears once, and its
    value is the value of the last session cookie of that name; a name that
    no session cookie has is absent, and no cookie is sent before the
    session is initialized. *)
Theorem cookie_dict_last_wins (cookies : list cookie) (c : cookie) (name : string) :
  dict_get (cookie_name c) (cookie_dict (Some (cookies ++ [c]))) = Some (cookie_value c)
  /\ (name <> cookie_name c ->
      dict_get name (cookie_dict (Some (cookies ++ [c])))
      = dict_get name (cookie_dict (Some cookies)))
  /\ NoDup (map fst (cookie_dict (Some cookies)))
  /\ (dict_get name (cookie_dict (Some cookies)) = None <->
      ~ In name (map cookie_name cookies))
  /\ cookie_dict None = [].
Proof.
  assert (Hfold : forall cs, cookie_dict (Some cs) = fold_left
            (fun d c => dict_set (cookie_name c) (cookie_value c) d) cs [])
    by (intros cs; apply (cookie_dict_fold cs [])).
  rewrite !Hfold, fold_left_app. simpl. rewrite !dict_get_set, String.eqb_refl.
  split; [reflexivity |]. split.
  { intros Hne. destruct (String.eqb (cookie_name c) name) eqn:E; [| reflexivity].
    apply String.eqb_eq in E. congruence. }
  split.
  { apply (cookie_dict_fold cookies []). constructor. }
  split; [| reflexivity].
  clear c. induction cookies as [| c cookies IH] using rev_ind; simpl.
  - intuition.
  - rewrite fold_left_app, map_app, in_app_iff. simpl. rewrite dict_get_set.
    destruct (String.eqb (cookie_name c) name) eqn:E.
    + apply String.eqb_eq in E. split; [discriminate | intros H; exfalso; apply H; auto].
    + apply String.eqb_neq in E. rewrite IH. intuition.
Qed.

(** ** What a unit does and records *)

(** X5. Whatever the answers, a unit makes at least one request and at most
    one more than [max_retry_attempts]; it makes a single request unless its
    first answer is a retryable rejection. *)
Theorem unit_request_bound (self : Booker) (e : env) (j : job) :
  (1 <= posts (snd (run_unit self e j))
   <= 1 + Z.to_nat (max_retry_attempts (config self)))%nat
  /\ (retryable (network e 0) = false -> posts (snd (run_unit self e j)) = 1%nat).
Proof.
  destruct (run_unit_actions self e j) as [k [Hk [Hposts _]]]. split; [lia |].
  intros Hnr. destruct k as [| k]; [exact Hposts |].
  destruct (run_unit_retried self e j k Hposts) as [Hr _]. congruence.
Qed.

(** X8. Log lines apart, what a unit does is: sleep until its fire instant
    when that instant is ahead, send its request, and then, once per retry,
    sleep [retry_interval_ms / 1000] seconds and send the same request
    again, with the same date and tee time.  The interval never changes
    between retries. *)
Theorem unit_repeats_same_request (self : Booker) (e : env) (j : job) :
  let o := snd (run_unit self e j) in
  let wait_time := (fire_instant j - clock e 0)%Q in
  actions (trace o)
  = (if Qltb 0 wait_time then [Slept wait_time] else [])
    ++ Posted (job_target_date j) (job_tee_time j)
       :: retry_ticks self (job_target_date j) (job_tee_time j) (posts o - 1).
Proof.
  cbv zeta. destruct (run_unit_actions self e j) as [k [_ [Hposts Hact]]].
  rewrite Hact, Hposts, trace_first_answer, <- app_assoc.
  replace (S k - 1)%nat with k by lia. reflexivity.
Qed.

Lemma request_result_success (r : net_outcome) (succ : bool) (st : Z)
    (err : option string) :
  request_result r = Ok (succ, st, err) ->
  (succ = true <-> st = 200) /\ (succ = true -> err = None).
Proof.
  destruct r as [status text | msg | msg]; simpl; try discriminate.
  - destruct (status =? 200) eqn:E; intros H; inversion H; subst; clear H.
    + apply Z.eqb_eq in E. intuition.
    + apply Z.eqb_neq in E. split; [split; [discriminate | contradiction] | discriminate].
  - intros H; inversion H; subst. split; [split; discriminate | discriminate].
Qed.

(** The record of a unit, by its first answer and by what the retry loop
    returned. *)
Lemma run_unit_record (self : Booker) (e : env) (j : job) :
  exists a,
    fst (run_unit self e j) = Ok a
    /\ timestamp a = clock e 1
    /\ offset_ms a = job_offset_ms j
    /\ (success a = true <-> status_code a = Some 200)
    /\ (success a = true -> error_message a = None)
    /\ match request_result (network e 0) with
       | Exn msg =>
           a = mkBookingAttempt (clock e 1) (job_offset_ms j) 0 None false (Some msg) None
       | Ok _ =>
           response_time_ms a = ((clock e 2 - clock e 1) * 1000)%Q
           /\ round_trip_latency_ms a = Some (response_time_ms a)
           /\ status_code a <> None
       end.
Proof.
  rewrite run_unit_eq. cbv zeta.
  remember (first_answer e j) as o2 eqn:Ho2. clear Ho2.
  destruct (request_result (network e 0)) as [[[succ st] err] | msg] eqn:E0.
  2:{ eexists. split; [reflexivity |]. simpl.
      repeat split; try discriminate; reflexivity. }
  destruct (request_result_success _ _ _ _ E0) as [Hs200 Hserr].
  assert (Hshape : forall s' st' err',
             (s' = true <-> st' = 200) -> (s' = true -> err' = None) ->
             let a := answered (clock e 1) (job_offset_ms j)
                        ((clock e 2 - clock e 1) * 1000)%Q s' st' err' in
             timestamp a = clock e 1
             /\ offset_ms a = job_offset_ms j
             /\ (success a = true <-> status_code a = Some 200)
             /\ (success a = true -> error_message a = None)
             /\ response_time_ms a = ((clock e 2 - clock e 1) * 1000)%Q
             /\ round_trip_latency_ms a = Some (response_time_ms a)
             /\ status_code a <> None).
  { intros s' st' err' H1 H2. simpl. repeat split; auto; try discriminate.
    - intros Hs. f_equal. now apply H1.
    - intros Hst. inversion Hst. now apply H1. }
  pose proof (retryable_first _ _ _ _ E0) as Hfirst.
  destruct (is_booking_not_open st err) eqn:Eopen.
  2:{ eexists. split; [reflexivity |]. now apply Hshape. }
  apply retryable_is_400 in Hfirst as Hfirst'. destruct Hfirst' as [text [_ [_ Hreq0]]].
  rewrite E0 in Hreq0. inversion Hreq0; subst succ st err; clear Hreq0.
  unfold smart_retry.
  match goal with |- context [run e (retry_loop self ?d ?t ?c ?m ?rc ?s) ?o] =>
    pose proof (retry_loop_cases e self d t c m rc s o) as Hcases;
    remember (run e (retry_loop self d t c m rc s) o) as res eqn:Hres; clear Hres
  end.
  cbv zeta in Hcases.
  destruct Hcases as [_ [[k [_ [Hr _]]] | [k [_ [Hr _]]]]].
  - rewrite Hr. cbn [exhausted]. eexists. split; [reflexivity |].
    apply Hshape; [split; discriminate | discriminate].
  - destruct (fst (fst res)) as [[[s' st'] err'] | msg] eqn:Eres.
    + symmetry in Hr. destruct (request_result_success _ _ _ _ Hr) as [H1 H2].
      eexists. split; [reflexivity |]. now apply Hshape.
    + eexists. split; [reflexivity |]. simpl.
      repeat split; try discriminate; auto.
Qed.

(** X6. In the record a unit returns, the success flag is set exactly when
    the status code is 200, and a successful record has no error detail. *)
Theorem success_iff_status_200 (self : Booker) (e : env) (j : job) :
  exists a,
    fst (run_unit self e j) = Ok a
    /\ (success a = true <-> status_code a = Some 200)
    /\ (success a = true -> error_message a = None).
Proof.
  destruct (run_unit_record self e j) as [a [Ha [_ [_ [H1 [H2 _]]]]]]. eauto.
Qed.

(** X7. The record of a unit is stamped with the start of its attempt, and
    its latency is measured on the first answer only: retries change the
    outcome of the record and never its latency, and the round-trip latency
    is the same number.  A latency of exactly [0.0] with no status code
    means that the first request raised. *)
Theorem latency_is_of_first_answer (self : Booker) (e : env) (j : job) :
  exists a,
    fst (run_unit self e j) = Ok a
    /\ timestamp a = clock e 1
    /\ match request_result (network e 0) with
       | Exn msg =>
           response_time_ms a = 0%Q /\ round_trip_latency_ms a = None
           /\ status_code a = None /\ error_message a = Some msg
       | Ok _ =>
           response_time_ms a = ((clock e 2 - clock e 1) * 1000)%Q
           /\ round_trip_latency_ms a = Some (response_time_ms a)
           /\ status_code a <> None
       end.
Proof.
  destruct (run_unit_record self e j) as [a [Ha [Ht [_ [_ [_ Hm]]]]]].
  exists a. split; [exact Ha |]. split; [exact Ht |].
  destruct (request_result (network e 0)); [exact Hm |]. subst a. simpl. auto.
Qed.

(** ** The summary and the order of the records *)

Lemma filter_permutation {A : Type} (p : A -> bool) (l l' : list A) :
  Permutation l l' -> Permutation (filter p l) (filter p l').
Proof.
  induction 1 as [| x l l' _ IH | x y l | l l' l'' _ IH1 _ IH2]; simpl.
  - constructor.
  - destruct (p x); [now constructor | exact IH].
  - destruct (p x), (p y); try reflexivity. apply perm_swap.
  - now transitivity (filter p l').
Qed.

Lemma py_min_by_least {A : Type} (key : A -> Q) (first : A) (rest : list A) :
  In (py_min_by key first rest) (first :: rest)
  /\ forall a, In a (first :: rest) -> (key (py_min_by key first rest) <= key a)%Q.
Proof.
  pose proof (py_min_by_first_minimal key rest first [] []
                (Forall_nil _) (Forall_nil _)) as Hmin.
  cbv zeta in Hmin. destruct Hmin as [before [after [Heq [Hb Ha]]]].
  simpl in Heq. rewrite Heq. split.
  - apply in_or_app. right. now left.
  - intros a Hin. apply in_app_or in Hin as [Hin | [<- | Hin]].
    + rewrite Forall_forall in Hb. apply Qlt_le_weak. now apply Hb.
    + apply Qle_refl.
    + rewrite Forall_forall in Ha. now apply Ha.
Qed.

(** X9. The counts of the summary and the latency of its fastest
    successful record do not depend on the order of the records: two
    collections with the same records in another order give the same number
    of successes, the same number of failures, and fastest successful
    records of the same latency, or none in both.  Which one of several
    equally fast records is reported depends on the order, and so may the
    mean, a sum of floats. *)
Theorem summary_order_independent (attempts attempts' : list BookingAttempt) :
  Permutation attempts attempts' ->
  let s := log_burst_summary attempts in
  let s' := log_burst_summary attempts' in
  n_successful s = n_successful s'
  /\ n_failed s = n_failed s'
  /\ match fastest s, fastest s' with
     | Some f, Some f' => (response_time_ms f == response_time_ms f')%Q
     | None, None => True
     | _, _ => False
     end.
Proof.
  intros Hperm. cbv zeta. unfold log_burst_summary.
  cbn [n_successful n_failed avg_response fastest].
  split; [apply Permutation_length; now apply filter_permutation |].
  split; [apply Permutation_length; now apply filter_permutation |].
  pose proof (filter_permutation success _ _ Hperm) as Hs.
  destruct (filter success attempts) as [| f l];
    destruct (filter success attempts') as [| f' l']; auto.
  - apply Permutation_length in Hs. discriminate.
  - apply Permutation_length in Hs. discriminate.
  - destruct (py_min_by_least response_time_ms f l) as [Hin Hle].
    destruct (py_min_by_least response_time_ms f' l') as [Hin' Hle'].
    apply Qle_antisym.
    + apply Hle. eapply Permutation_in; [symmetry; exact Hs | exact Hin'].
    + apply Hle'. eapply Permutation_in; [exact Hs | exact Hin].
Qed.

Lemma summary_order_independent_witness :
  let ok := mkBookingAttempt 0 10 80 (Some 200) true None (Some 80%Q) in
  let ko := mkBookingAttempt 0 (-10) 50 (Some 409) false (Some "no availability"%string)
              (Some 50%Q) in
  n_successful (log_burst_summary [ok; ko]) = n_successful (log_burst_summary [ko; ok]).
Proof.
  cbv zeta.
  exact (proj1 (summary_order_independent _ _ (perm_swap _ _ []))).
Defined.

(** ** The jobs of a burst *)

Lemma booking_tasks_length (self : Booker) (booking_time : Q) (target_date : string) :
  List.length (booking_tasks self booking_time target_date)
  = (List.length (burst_offsets (config self)) * List.length (target_times self))%nat.
Proof.
  rewrite <- (length_map (fun j => (job_offset_ms j, job_tee_time j))).
  rewrite booking_tasks_pairs. apply length_prod.
Qed.

(** X10. A booker always has a tee time, since a missing or empty list of
    target times is replaced by the default one; so a burst schedules no job
    exactly when the configured list of offsets is empty.  Such a burst
    completes with no record, counts of zero, no fastest record and no
    mean. *)
Theorem no_job_only_without_offsets (cfg : BurstConfig) (creds : json)
    (targets : option (list string)) (booking_time : Q) (target_date : string) :
  let self := Booker_init cfg creds targets in
  target_times self <> []
  /\ (booking_tasks self booking_time target_date = [] <-> burst_offsets cfg = [])
  /\ (forall pf envs,
        burst_offsets cfg = [] ->
        calculate_booking_time pf self = Ok booking_time ->
        execute_burst_strategy pf self target_date envs
        = Ok (mkReport 0 [] [] (mkSummary 0 0 None None))).
Proof.
  intros self.
  assert (Ht : target_times self <> []).
  { unfold self, Booker_init. simpl. destruct targets as [[| x l] |]; discriminate. }
  split; [exact Ht |]. split; [split |].
  - intros Hnil. pose proof (booking_tasks_length self booking_time target_date) as Hlen.
    rewrite Hnil in Hlen. change (config self) with cfg in Hlen.
    destruct (burst_offsets cfg) as [| o l]; [reflexivity |].
    destruct (target_times self) as [| x r]; [contradiction |].
    simpl in Hlen. discriminate.
  - intros Hoff. unfold booking_tasks. change (config self) with cfg. now rewrite Hoff.
  - intros pf envs Hoff Hbt. unfold execute_burst_strategy. rewrite Hbt. cbn [rbind].
    unfold booking_tasks. change (config self) with cfg. rewrite Hoff.
    reflexivity.
Qed.

Lemma gather_offsets (self : Booker) (envs : nat -> env) (tasks : list job) :
  forall i attempts,
    gather self envs i tasks = map Ok attempts ->
    map offset_ms attempts = map job_offset_ms tasks
    /\ Forall (fun a => (success a = true <-> status_code a = Some 200)
                        /\ (success a = true -> error_message a = None)) attempts.
Proof.
  induction tasks as [| j rest IH]; intros i [| a attempts] H; simpl in H;
    try discriminate.
  - split; constructor.
  - inversion H as [[Ha Hrest]].
    destruct (run_unit_record self (envs i) j) as [a' [Ha' [_ [Hoff [H200 [Herr _]]]]]].
    rewrite Ha' in Ha. inversion Ha; subst a'.
    destruct (IH (S i) attempts Hrest) as [IH1 IH2].
    simpl. split; [now rewrite Hoff, IH1 | now constructor].
Qed.

(** X14. The records a burst returns follow the order in which the jobs
    were created: the offsets of the records are the configured offsets in
    their order, each one repeated once per tee time. *)
Theorem attempts_follow_job_order (pf : platform) (self : Booker)
    (target_date : string) (envs : nat -> env) (booking_time : Q) :
  calculate_booking_time pf self = Ok booking_time ->
  exists report,
    execute_burst_strategy pf self target_date envs = Ok report
    /\ map offset_ms (report_attempts report)
       = map fst (list_prod (burst_offsets (config self)) (target_times self)).
Proof.
  intros Hbt. unfold execute_burst_strategy. rewrite Hbt. cbn [rbind].
  set (tasks := booking_tasks self booking_time target_date).
  destruct (gather_records self envs tasks 0) as [attempts Hg].
  destruct (keep_records attempts) as [Hk1 _].
  eexists. split; [reflexivity |]. cbn [report_attempts]. rewrite Hg, Hk1.
  destruct (gather_offsets self envs tasks 0 attempts Hg) as [Hoff _].
  rewrite Hoff. unfold tasks.
  rewrite <- (booking_tasks_pairs self booking_time target_date), map_map. reflexivity.
Qed.

Lemma attempts_follow_job_order_witness :
  exists report,
    execute_burst_strategy sample_platform scenario_booker "07-24-2025"
      (fun _ => sample_env) = Ok report
    /\ map offset_ms (report_attempts report) = [-10; 10].
Proof.
  exact (attempts_follow_job_order sample_platform scenario_booker "07-24-2025"
           (fun _ => sample_env) _ eq_refl).
Defined.

(** ** The callers of the burst *)

Lemma burst_attempts_sound (pf : platform) (self : Booker) (target_date : string)
    (envs : nat -> env) (booking_time : Q) :
  calculate_booking_time pf self = Ok booking_time ->
  exists report,
    execute_burst_strategy pf self target_date envs = Ok report
    /\ report_summary report = log_burst_summary (report_attempts report)
    /\ List.length (report_attempts report)
       = List.length (booking_tasks self booking_time target_date)
    /\ Forall (fun a => (success a = true <-> status_code a = Some 200)
                        /\ (success a = true -> error_message a = None))
         (report_attempts report).
Proof.
  intros Hbt. unfold execute_burst_strategy. rewrite Hbt. cbn [rbind].
  set (tasks := booking_tasks self booking_time target_date).
  destruct (gather_records self envs tasks 0) as [attempts Hg].
  destruct (keep_records attempts) as [Hk1 _].
  eexists. split; [reflexivity |]. cbn [report_attempts report_summary].
  rewrite Hg, Hk1. split; [reflexivity |]. split.
  - rewrite <- (gather_length self envs tasks 0), Hg. now rewrite length_map.
  - apply (gather_offsets self envs tasks 0 attempts Hg).
Qed.

(** X4. The legacy wrapper never raises.  It returns [None], with one
    printed line that carries the error text, exactly when the run raised:
    on a configuration that cannot be read, on a target date out of the
    range of dates, on a session that could not be initialized, on a window
    time, in ASCII text, that is no time of day.  Otherwise it returns the
    successful records of the burst, as many as the summary counted, each
    with status code 200 and no error detail. *)
Theorem legacy_wrapper_never_raises (pf : platform) (config_file : string)
    (src : config_source) (session : result unit) (envs : nat -> env) :
  let wrapped := book_tee_time_automated pf config_file src session envs in
  (forall msg, wrapped <> Raised msg)
  /\ (forall msg,
        load_settings config_file src = Raised msg ->
        wrapped = Returned (None, ["Booking failed: " ++ msg]%string))
  /\ (forall st,
        load_settings config_file src = Returned st ->
        ascii_text (booking_window_time (s_config st)) = true ->
        match format_target_date pf (s_days_in_advance st), session,
              calculate_booking_time pf (booker_of st) with
        | Exn msg, _, _ | Ok _, Exn msg, _ | Ok _, Ok _, Exn msg =>
            wrapped = Returned (None, ["Booking failed: " ++ msg]%string)
        | Ok target_date, Ok _, Ok _ =>
            exists report,
              execute_burst_strategy pf (booker_of st) target_date envs = Ok report
              /\ wrapped = Returned (Some (filter success (report_attempts report)), [])
              /\ List.length (filter success (report_attempts report))
                 = n_successful (report_summary report)
              /\ Forall (fun a => status_code a = Some 200 /\ error_message a = None)
                   (filter success (report_attempts report))
        end).
Proof.
  cbv zeta. unfold book_tee_time_automated. split; [| split].
  - intros msg. destruct (run_burst_booking _ _ _ _ _) as [[r l] | e |]; discriminate.
  - intros msg Hload. unfold run_burst_booking. now rewrite Hload.
  - intros st Hload _. unfold run_burst_booking. rewrite Hload. cbn [obind].
    destruct (format_target_date pf (s_days_in_advance st)) as [target_date | msg];
      cbn [of_result obind]; [| reflexivity].
    destruct session as [[] | msg]; cbn [of_result obind]; [| reflexivity].
    destruct (calculate_booking_time pf (booker_of st)) as [booking_time | msg] eqn:Ebt.
    2:{ unfold execute_burst_strategy. rewrite Ebt. reflexivity. }
    destruct (burst_attempts_sound pf (booker_of st) target_date envs booking_time Ebt)
      as [report [Hrun [Hsum [_ Hall]]]].
    exists report. rewrite Hrun. cbn [of_result obind].
    split; [reflexivity |]. split; [reflexivity |]. split.
    + rewrite Hsum. reflexivity.
    + rewrite Forall_forall in *. intros a Ha. apply filter_In in Ha as [Hin Hs].
      destruct (Hall a Hin) as [H200 Herr]. split; [now apply H200 | now apply Herr].
Qed.

Lemma obind_raised {A B : Type} (m : outcome A) (f : A -> outcome B) (e : string) :
  obind m f = Raised e ->
  m = Raised e \/ exists a, m = Returned a /\ f a = Raised e.
Proof.
  destruct m as [a | e' |]; simpl; try discriminate.
  - intros H. right. now exists a.
  - intros H. left. now inversion H.
Qed.

Lemma py_get_raised (d : json) (key : string) (default : json) (e : string) :
  of_result (py_get d key default) = Raised e ->
  is_dict d = false /\ e = "object has no attribute 'get'"%string.
Proof.
  destruct d; simpl; intros H; inversion H; auto.
Qed.

Lemma typed_not_raised {A : Type} (x : option A) (e : string) : typed x <> Raised e.
Proof.
  destruct x; discriminate.
Qed.

Ltac split_raise H :=
  repeat (apply obind_raised in H;
          destruct H as [H | [? [? H]]];
          [ first [ apply py_get_raised in H | exfalso; exact (typed_not_raised _ _ H) ]
          | ]).

(** X11. Reading a configuration raises in one way only, an
    [AttributeError] that the two handlers of the loader do not catch: when
    the value read from the file, its ["burst_config"] or its
    ["booking_settings"] is not a mapping.  A file that holds a list, a
    string, a number or [null] always raises it. *)
Theorem loader_raises_on_non_mapping (config_file : string) (config_data : json) :
  (is_dict config_data = false ->
   load_settings config_file (Loaded config_data)
   = Raised "object has no attribute 'get'")
  /\ (forall msg,
        load_settings config_file (Loaded config_data) = Raised msg ->
        msg = "object has no attribute 'get'"%string
        /\ (is_dict config_data = false
            \/ exists items key v,
                 config_data = JDict items
                 /\ (key = "burst_config" \/ key = "booking_settings")%string
                 /\ items_get key items = Some v
                 /\ is_dict v = false)).
Proof.
  split.
  - destruct config_data; try discriminate; reflexivity.
  - intros msg H. unfold load_settings in H.
    destruct config_data as [| b | n | q | s | l | items];
      try (simpl in H; inversion H; split; [reflexivity | left; reflexivity]).
    cbn [py_get of_result obind] in H.
    assert (Hsub : forall key,
               (key = "burst_config" \/ key = "booking_settings")%string ->
               is_dict match items_get key items with
                       | Some x => x
                       | None => JDict []
                       end = false ->
               exists items' key' v,
                 JDict items = JDict items'
                 /\ (key' = "burst_config" \/ key' = "booking_settings")%string
                 /\ items_get key' items' = Some v
                 /\ is_dict v = false).
    { intros key Hkey Hnd. destruct (items_get key items) as [v |] eqn:E;
        [| discriminate]. exists items, key, v. auto. }
    split_raise H.
    all: try match type of H with
         | _ /\ _ => destruct H as [Hnd ->]; split; [reflexivity | right]
         end.
    all: try (apply (Hsub "burst_config"%string); [now left | exact Hnd]).
    all: try (apply (Hsub "booking_settings"%string); [now right | exact Hnd]).
    all: try discriminate.
Qed.

(** ** The example program *)

Lemma py_index_ok (d : json) (key : string) (v : json) :
  py_index d key = Ok v -> exists items, d = JDict items /\ items_get key items = Some v.
Proof.
  destruct d as [| | | | | | items]; simpl; try discriminate.
  destruct (items_get key items) as [x |] eqn:E; [| discriminate].
  intros H. inversion H; subst. eauto.
Qed.

Ltac use_index :=
  repeat match goal with
    | Hi : py_index _ _ = Ok _ |- _ =>
        apply py_index_ok in Hi;
        let it := fresh "it" in
        let E := fresh "E" in
        destruct Hi as [it [E Hi]];
        try (injection E as E); subst
    end.

(** X12. On a configuration that the example program reads without error,
    the entry point of the booker reads the same credentials, target times
    and burst settings, with one exception: [max_concurrent_requests], which
    the example takes from the file and the entry point always sets to
    10. *)
Theorem example_settings_agree (config_file : string) (config_data : json)
    (cfg : BurstConfig) (creds : json) (targets : option (list string)) (days : Z) :
  example_settings config_data = Returned (cfg, creds, targets) ->
  (booking_settings <-- of_result (py_get config_data "booking_settings" (JDict [])) ;;
   v_days <-- of_result (py_get booking_settings "days_in_advance" (JInt 2)) ;;
   typed (as_int v_days)) = Returned days ->
  load_settings config_file (Loaded config_data)
  = Returned (mkSettings (with_cap 10 cfg) creds targets days []).
Proof.
  intros Hex Hdays. unfold example_settings in Hex. invert_chain Hex.
  inversion Hex; subst cfg creds targets; clear Hex. use_index.
  invert_chain Hdays.
  unfold load_settings. cbn [py_get of_result obind].
  repeat match goal with
    | Hk : items_get ?k ?l = Some _ |- context [items_get ?k ?l] => rewrite Hk
    end.
  cbn [py_get of_result obind].
  repeat match goal with
    | Hk : items_get ?k ?l = Some _ |- context [items_get ?k ?l] => rewrite Hk
    end.
  repeat match goal with
    | Ht : ?x = Some _ |- context [typed ?x] => rewrite Ht; cbn [typed obind]
    end.
  repeat match goal with
    | Hg : py_get ?a ?b ?c = Ok _ |- context [py_get ?a ?b ?c] =>
        rewrite Hg; cbn [of_result obind]
    end.
  cbn [py_get] in *.
  repeat match goal with
    | Hg : Ok _ = Ok ?v |- _ => inversion Hg; subst v; clear Hg
    end.
  repeat match goal with
    | Hg : py_get ?a ?b ?c = Ok _ |- context [py_get ?a ?b ?c] =>
        rewrite Hg; cbn [of_result obind]
    end.
  rewrite Hdays. reflexivity.
Qed.

Lemma example_settings_agree_witness :
  exists cfg creds targets,
    example_settings sample_config_data = Returned (cfg, creds, targets)
    /\ max_concurrent_requests cfg = 5
    /\ load_settings "config.json" (Loaded sample_config_data)
       = Returned (mkSettings (with_cap 10 cfg) creds targets 2 []).
Proof.
  eexists. eexists. eexists. split; [reflexivity |]. split; [reflexivity |].
  exact (example_settings_agree "config.json" sample_config_data _ _ _ 2 eq_refl eq_refl).
Defined.

(** X15. The example program raises a [KeyError] when the configuration has
    no ["burst_config"], a key for which the entry point of the booker has a
    default.  Once it has read its configuration it raises no more: a
    session that fails and a window time that is no time of day are printed
    as an error; otherwise it prints how many attempts succeeded out of one
    attempt per job, for the fixed target date. *)
Theorem example_main_errors (pf : platform) (config_data : json)
    (session : result unit) (envs : nat -> env) :
  (forall items,
      config_data = JDict items ->
      items_get "burst_config" items = None ->
      example_main pf config_data session envs = Raised "'burst_config'")
  /\ (forall cfg creds targets,
        example_settings config_data = Returned (cfg, creds, targets) ->
        let booker := Booker_init cfg creds targets in
        match session, calculate_booking_time pf booker with
        | Exn msg, _ | Ok _, Exn msg =>
            example_main pf config_data session envs = Returned (ExampleError msg)
        | Ok _, Ok booking_time =>
            exists n_ok,
              example_main pf config_data session envs
              = Returned (ExampleResults n_ok
                            (List.length (booking_tasks booker booking_time "07-22-2025")))
              /\ (n_ok <= List.length (booking_tasks booker booking_time "07-22-2025"))%nat
        end).
Proof.
  split.
  - intros items -> Habs. unfold example_main, example_settings. simpl.
    now rewrite Habs.
  - intros cfg creds targets Hex booker. unfold example_main. rewrite Hex.
    cbn [obind fst snd]. fold booker.
    destruct session as [[] | msg]; [| reflexivity].
    destruct (calculate_booking_time pf booker) as [booking_time | msg] eqn:Ebt.
    2:{ unfold execute_burst_strategy. rewrite Ebt. reflexivity. }
    destruct (burst_attempts_sound pf booker "07-22-2025" envs booking_time Ebt)
      as [report [Hrun [_ [Hlen _]]]].
    rewrite Hrun, Hlen. eexists. split; [reflexivity |].
    rewrite <- Hlen.
    pose proof (filter_partition_length success (report_attempts report)). lia.
Qed.

(** ** The two ends of a retry *)

(** X16. Retrying absorbs rejections that come too early: when the first
    answer and the next [n] answers are retryable rejections, the answer
    after them has status 200, [n] is below [max_retry_attempts], and the
    clock is below the cutoff each time the loop looks at it, the unit ends
    as a success after [n + 1] retries. *)
Theorem retry_absorbs_early_rejections (self : Booker) (e : env) (j : job)
    (n : nat) (text : string) :
  retryable (network e 0) = true ->
  (forall i, (i < n)%nat -> retryable (network e (S i)) = true) ->
  network e (S n) = Response 200 text ->
  (n < Z.to_nat (max_retry_attempts (config self)))%nat ->
  (forall i, (i <= n)%nat ->
     (clock e (3 + i) < clock e 1 + cutoff_seconds (config self))%Q) ->
  fst (run_unit self e j)
  = Ok (answered (clock e 1) (job_offset_ms j) ((clock e 2 - clock e 1) * 1000)%Q
          true 200 None)
  /\ posts (snd (run_unit self e j)) = S (S n).
Proof.
  intros Hfirst Hretry Hok Hn Hclock.
  assert (Hlast : retryable (network e (S n)) = false) by (now rewrite Hok).
  destruct (run_unit_retry_cases self e j Hfirst) as [k [Hex | Hst]]; cbv zeta in *.
  - exfalso. destruct Hex as [Hle [_ [Hnet [Hend _]]]].
    destruct (Nat.lt_ge_cases n k) as [Hlt | Hge].
    + rewrite (Hnet n Hlt) in Hlast. discriminate.
    + destruct Hend as [-> | Hend]; [lia |].
      apply (Qlt_not_le _ _ (Hclock k Hge)). exact Hend.
  - destruct Hst as [_ [_ [Hnet [Hstop [Hrec Hposts]]]]].
    assert (k = n).
    { destruct (Nat.lt_trichotomy k n) as [Hlt | [Heq | Hgt]]; [| exact Heq |].
      - rewrite (Hretry k Hlt) in Hstop. discriminate.
      - rewrite (Hnet n Hgt) in Hlast. discriminate. }
    subst k. rewrite Hrec, Hposts, Hok. split; reflexivity.
Qed.

Lemma retry_absorbs_early_rejections_witness :
  exists a,
    fst (run_unit scenario_booker opening_env (mkJob 0 (-10) "07-24-2025" "7:33")) = Ok a
    /\ success a = true
    /\ posts (snd (run_unit scenario_booker opening_env
                     (mkJob 0 (-10) "07-24-2025" "7:33"))) = 3%nat.
Proof.
  assert (Hretry : forall i, (i < 1)%nat -> retryable (network opening_env (S i)) = true).
  { intros i Hi. replace i with 0%nat by lia. reflexivity. }
  assert (Hclock : forall i, (i <= 1)%nat ->
            (clock opening_env (3 + i)
             < clock opening_env 1 + cutoff_seconds (config scenario_booker))%Q).
  { intros i Hi. assert (i = 0 \/ i = 1)%nat as [-> | ->] by lia; reflexivity. }
  assert (Hlimit : (1 < Z.to_nat (max_retry_attempts (config scenario_booker)))%nat).
  { simpl. lia. }
  destruct (retry_absorbs_early_rejections scenario_booker opening_env
              (mkJob 0 (-10) "07-24-2025" "7:33") 1 "booked"
              eq_refl Hretry eq_refl Hlimit Hclock) as [Hrec Hposts].
  eexists. split; [exact Hrec |]. split; [reflexivity | exact Hposts].
Defined.

(** X17. A unit gives up at once, with no retry and the message of zero
    retries, when its first answer is a retryable rejection and either
    [max_retry_attempts] is not positive or the clock has already reached the
    cutoff when the loop first looks at it, as it has with a cutoff of zero
    seconds on a clock that does not run backwards. *)
Theorem no_retry_without_budget (self : Booker) (e : env) (j : job) :
  retryable (network e 0) = true ->
  max_retry_attempts (config self) <= 0
  \/ (clock e 1 + cutoff_seconds (config self) <= clock e 3)%Q ->
  fst (run_unit self e j)
  = Ok (answered (clock e 1) (job_offset_ms j) ((clock e 2 - clock e 1) * 1000)%Q
          false 400 (Some "Max retries (0) reached or cutoff time exceeded"%string))
  /\ posts (snd (run_unit self e j)) = 1%nat.
Proof.
  intros Hfirst Hbudget.
  destruct (run_unit_retry_cases self e j Hfirst) as [k [Hex | Hst]]; cbv zeta in *.
  - destruct Hex as [Hle [Hclk [_ [_ [Hrec Hposts]]]]].
    assert (k = 0%nat).
    { destruct k as [| k]; [reflexivity | exfalso].
      destruct Hbudget as [Hmax | Hcut]; [lia |].
      apply (Qlt_not_le _ _ (Hclk 0%nat ltac:(lia))). exact Hcut. }
    subst k. rewrite Hrec, Hposts. split; reflexivity.
  - exfalso. destruct Hst as [Hlt [Hclk _]].
    destruct Hbudget as [Hmax | Hcut]; [lia |].
    apply (Qlt_not_le _ _ (Hclk 0%nat ltac:(lia))). exact Hcut.
Qed.

Lemma no_retry_without_budget_witness :
  posts (snd (run_unit
                (Booker_init (BurstConfig_init None 35 0 10 "23:00:00" 30)
                   default_credentials None)
                rejecting_env (mkJob 0 10 "07-24-2025" "7:33"))) = 1%nat.
Proof.
  exact (proj2 (no_retry_without_budget
                  (Booker_init (BurstConfig_init None 35 0 10 "23:00:00" 30)
                     default_credentials None)
                  rejecting_env (mkJob 0 10 "07-24-2025" "7:33")
                  eq_refl (or_introl (Z.le_refl 0)))).
Defined.
